(** * pykrakenapi: the call rate limiter of [KrakenAPI]

    A shallow embedding of [callratelimiter] and [KrakenAPI.__init__]
    (pykrakenapi/pykrakenapi.py) and the properties of the decaying
    call counter.

    Python objects are mutable: the client [self], the transport
    [self.api] and the standard output are threaded through a small
    state-and-exception monad. *)

From Stdlib Require Import ZArith List String Bool Lia.
Import ListNotations.

Open Scope string_scope.
Open Scope list_scope.
Open Scope Z_scope.

(** ** Python's [datetime] arithmetic

    A [datetime] is a number of microseconds since some epoch (the
    resolution of [datetime.datetime.now()]).  The difference of two
    datetimes is a [timedelta], which Python keeps normalised:
    [0 <= seconds < 86400] and [0 <= microseconds < 1000000], the rest
    going to [days] (which may be negative). *)

Module datetime.

Definition datetime := Z.

Record timedelta := mk_timedelta
  { days : Z; seconds : Z; microseconds : Z }.

Definition us_per_second : Z := 1000000.
Definition seconds_per_day : Z := 86400.

Definition normalize (us : Z) : timedelta :=
  {| days := us / (us_per_second * seconds_per_day);
     seconds := (us / us_per_second) mod seconds_per_day;
     microseconds := us mod us_per_second |}.

(** [a - b] on datetimes. *)
Definition sub (a b : datetime) : timedelta := normalize (a - b).

(** [timedelta.total_seconds()], times one million. *)
Definition total_microseconds (d : timedelta) : Z :=
  (days d * seconds_per_day + seconds d) * us_per_second + microseconds d.

(** A whole number of seconds, as a datetime offset. *)
Definition of_seconds (s : Z) : Z := s * us_per_second.

End datetime.

Import datetime.

(** ** Values, exceptions and the transport *)

(** What a wrapped method hands back: [None], or some shaped result
    (a DataFrame, a tuple, ...), kept abstract. *)
Inductive pyvalue : Type :=
| PyNone
| PyObj (repr : string).

Inductive exn : Type :=
| AttributeError (attr : string)
| UnboundLocalError (name : string)
| ZeroDivisionError
| KrakenAPIError (errors : list string)
| TransportError (msg : string).

Inductive result (A : Type) : Type :=
| Return (a : A)
| Raise (e : exn).
Arguments Return {A} a.
Arguments Raise {A} e.

(** The answer of the exchange to one query: the [error] list and the
    [result] of the JSON response, or a failure of the transport
    itself. *)
Inductive reply : Type :=
| Reply (error : list string) (res : pyvalue)
| Fail (e : exn).

(** [krakenex.API], the object behind [self.api]: how the exchange
    answers each endpoint, and the queries sent so far (latest first). *)
Record API := mkAPI
  { respond : string -> reply;
    sent : list string }.

Definition query (a : API) (endpoint : string) : reply * API :=
  (respond a endpoint, {| respond := respond a; sent := endpoint :: sent a |}).

(** ** The client object

    [limit] and [factor] are attributes that [__init__] sets in some
    branches only: an attribute that was never set is [None] here and
    reading it raises [AttributeError]. *)
Record KrakenAPI := mkKrakenAPI
  { api : API;
    time_of_last_query : datetime;
    api_counter : Z;
    limit : option Z;
    factor : option Z }.

Definition set_api (a : API) (s : KrakenAPI) : KrakenAPI :=
  {| api := a; time_of_last_query := time_of_last_query s;
     api_counter := api_counter s; limit := limit s; factor := factor s |}.

Definition set_time_of_last_query (t : datetime) (s : KrakenAPI) : KrakenAPI :=
  {| api := api s; time_of_last_query := t;
     api_counter := api_counter s; limit := limit s; factor := factor s |}.

Definition set_api_counter (c : Z) (s : KrakenAPI) : KrakenAPI :=
  {| api := api s; time_of_last_query := time_of_last_query s;
     api_counter := c; limit := limit s; factor := factor s |}.

Definition set_limit (l : Z) (s : KrakenAPI) : KrakenAPI :=
  {| api := api s; time_of_last_query := time_of_last_query s;
     api_counter := api_counter s; limit := Some l; factor := factor s |}.

Definition set_factor (f : Z) (s : KrakenAPI) : KrakenAPI :=
  {| api := api s; time_of_last_query := time_of_last_query s;
     api_counter := api_counter s; limit := limit s; factor := Some f |}.

(** [KrakenAPI.__init__(self, api, tier=2)]; [now] is the reading of
    [datetime.datetime.now()].  There is no [else] branch and no
    [raise]: the constructor returns for every [tier]. *)
Definition __init__ (api0 : API) (tier : Z) (now : datetime) : result KrakenAPI :=
  let self :=
    {| api := api0; time_of_last_query := now; api_counter := 0;
       limit := None; factor := None |} in
  if tier =? 2 then Return (set_factor 3 (set_limit 15 self))
  else if tier =? 3 then Return (set_factor 2 (set_limit 20 self))
  else if tier =? 4 then Return (set_factor 1 (set_limit 20 self))
  else Return self.

(** ** The state-and-exception monad of a call *)

(** One line of standard output: the arguments given to [print]. *)
Definition line : Type := string * Z.

Record World := mkWorld
  { self : KrakenAPI;
    stdout : list line }.

Definition M (A : Type) : Type := World -> result A * World.

Definition ret {A} (a : A) : M A := fun w => (Return a, w).
Definition raise {A} (e : exn) : M A := fun w => (Raise e, w).
Definition bind {A B} (m : M A) (k : A -> M B) : M B :=
  fun w => match m w with
           | (Return a, w') => k a w'
           | (Raise e, w') => (Raise e, w')
           end.

Notation "x <- m ;; k" := (bind m (fun x => k))
  (at level 61, m at next level, right associativity).
Notation "m ;; k" := (bind m (fun _ => k))
  (at level 61, right associativity).

(** Reading and writing the attributes of [self]. *)
Definition get {A} (field : KrakenAPI -> A) : M A :=
  fun w => (Return (field (self w)), w).

Definition getattr (field : KrakenAPI -> option Z) (name : string) : M Z :=
  fun w => match field (self w) with
           | Some v => (Return v, w)
           | None => (Raise (AttributeError name), w)
           end.

Definition modify (f : KrakenAPI -> KrakenAPI) : M unit :=
  fun w => (Return tt, {| self := f (self w); stdout := stdout w |}).

Definition print (msg : string) (v : Z) : M unit :=
  fun w => (Return tt, {| self := self w; stdout := stdout w ++ [(msg, v)] |}).

(** A local variable that some branches leave unbound. *)
Definition local (v : option Z) (name : string) : M Z :=
  match v with
  | Some x => ret x
  | None => raise (UnboundLocalError name)
  end.

(** [int(a / b)]: true division, then truncation toward zero.  With
    [0 <= a < 86400] and the small divisors of [__init__] the floating
    point quotient truncates to the exact integer quotient. *)
Definition int_div (a b : Z) : M Z :=
  if b =? 0 then raise ZeroDivisionError else ret (Z.quot a b).

(** A wrapped function gets [self] (its other arguments are fixed by
    the caller) and may change it, return or raise. *)
Definition method : Type := KrakenAPI -> result pyvalue * KrakenAPI.

Definition call (func : method) : M pyvalue :=
  fun w => let (r, s) := func (self w) in
           (r, {| self := s; stdout := stdout w |}).

(** ** The decorator *)

(** Lines 50-54, "determine increment": [incr] stays unbound for any
    other [query_type]. *)
Definition determine_increment (query_type : string) : option Z :=
  if (query_type =? "ledger/trade history")%string then Some 2
  else if (query_type =? "other")%string then Some 1
  else None.

(** Line 58, [(now - self.time_of_last_query).seconds]: the [seconds]
    field of the normalised difference, not its total. *)
Definition elapsed_seconds (now last : datetime) : Z :=
  seconds (datetime.sub now last).

(** Lines 56-62, "decrease api counter, update time of last query". *)
Definition decrease_api_counter (now : datetime) : M unit :=
  last <- get time_of_last_query ;;
  f <- getattr factor "factor" ;;
  decr <- int_div (elapsed_seconds now last) f ;;
  c <- get api_counter ;;
  modify (set_api_counter (c - decr)) ;;
  c <- get api_counter ;;
  (if c <? 0 then modify (set_api_counter 0) else ret tt) ;;
  modify (set_time_of_last_query now).

(** Lines 64-73, "return api call" or "block if limit exceeded". *)
Definition return_api_call (incr : option Z) (func : method) : M pyvalue :=
  c <- get api_counter ;;
  l <- getattr limit "limit" ;;
  if c <? l then
    res <- call func ;;
    c <- get api_counter ;;
    i <- local incr "incr" ;;
    modify (set_api_counter (c + i)) ;;
    ret res
  else
    c <- get api_counter ;;
    print "api count limit exceeded, counter=" c ;;
    ret PyNone.

Definition wrapper (query_type : string) (func : method) (now : datetime)
  : M pyvalue :=
  let incr := determine_increment query_type in
  decrease_api_counter now ;;
  return_api_call incr func.

Definition decorate_func (query_type : string) (func : method)
  : datetime -> M pyvalue :=
  wrapper query_type func.

Definition callratelimiter (query_type : string)
  : method -> datetime -> M pyvalue :=
  decorate_func query_type.

(** ** The decorated methods

    Every decorated method of [KrakenAPI] has the same skeleton: build
    the request, send one query through [self.api], raise
    [KrakenAPIError] when the response carries errors, otherwise shape
    and return the result.  None of them reads or writes the limiter's
    attributes.  The shaping itself (pandas) is left out: here a call
    whose response carries no error returns its result. *)
Definition api_method (endpoint : string) : method :=
  fun s =>
    let (r, a) := query (api s) endpoint in
    match r with
    | Fail e => (Raise e, set_api a s)
    | Reply [] res => (Return res, set_api a s)
    | Reply (e :: es) _ => (Raise (KrakenAPIError (e :: es)), set_api a s)
    end.

(** The decorated methods: name, [query_type] given to the decorator,
    endpoint queried. *)
Definition decorated_methods : list (string * string * string) :=
  [ ("get_server_time", "other", "Time");
    ("get_asset_info", "other", "Assets");
    ("get_tradable_asset_pairs", "other", "AssetPairs");
    ("get_ticker_information", "other", "Ticker");
    ("get_ohlc_data", "other", "OHLC");
    ("get_order_book", "other", "Depth");
    ("get_recent_trades", "ledger/trade history", "Trades");
    ("get_recent_spread_data", "other", "Spread");
    ("get_account_balance", "other", "Balance");
    ("get_trade_balance", "ledger/trade history", "TradeBalance");
    ("get_open_orders", "other", "OpenOrders");
    ("get_closed_orders", "other", "ClosedOrders");
    ("query_orders_info", "other", "QueryOrders");
    ("get_trades_history", "ledger/trade history", "TradesHistory");
    ("query_trades_info", "ledger/trade history", "QueryTrades");
    ("get_open_positions", "other", "OpenPositions");
    ("get_ledgers_info", "ledger/trade history", "Ledgers");
    ("query_ledgers", "ledger/trade history", "QueryLedgers");
    ("get_trade_volume", "ledger/trade history", "TradeVolume") ].

Definition query_ledgers : datetime -> M pyvalue :=
  callratelimiter "ledger/trade history" (api_method "QueryLedgers").

Definition get_account_balance : datetime -> M pyvalue :=
  callratelimiter "other" (api_method "Balance").

(** ** Sequences of calls *)

(** One call of a decorated method: the decorator's [query_type], the
    wrapped function and the clock reading during the call. *)
Record check := mkCheck
  { check_type : string;
    check_func : method;
    check_now : datetime }.

Definition step (c : check) (w : World) : result pyvalue * World :=
  callratelimiter (check_type c) (check_func c) (check_now c) w.

(** The caller goes on after each call, whatever its outcome. *)
Fixpoint run (cs : list check) (w : World) : World :=
  match cs with
  | [] => w
  | c :: cs' => run cs' (snd (step c w))
  end.

(** The outcome of each call and the counter it leaves. *)
Fixpoint trace (cs : list check) (w : World) : list (result pyvalue * Z) :=
  match cs with
  | [] => []
  | c :: cs' =>
      let (r, w') := step c w in
      (r, api_counter (self w')) :: trace cs' w'
  end.

(** ** What one call computes *)

(** The decrement of line 58. *)
Definition decr (now : datetime) (f : Z) (s : KrakenAPI) : Z :=
  Z.quot (elapsed_seconds now (time_of_last_query s)) f.

(** The client after lines 56-62. *)
Definition decayed (now : datetime) (f : Z) (s : KrakenAPI) : KrakenAPI :=
  set_time_of_last_query now
    (set_api_counter (Z.max 0 (api_counter s - decr now f s)) s).

Definition with_self (s : KrakenAPI) (w : World) : World :=
  {| self := s; stdout := stdout w |}.

(** A wrapped function that leaves the limiter's attributes alone. *)
Definition keeps_limiter (func : method) : Prop :=
  forall s,
    api_counter (snd (func s)) = api_counter s /\
    time_of_last_query (snd (func s)) = time_of_last_query s /\
    limit (snd (func s)) = limit s /\
    factor (snd (func s)) = factor s.

Definition limit_exceeded : string := "api count limit exceeded, counter=".

(** The counter once lines 56-62 have run. *)
Definition counter_after_decay (now : datetime) (w : World) : Z :=
  api_counter (self (snd (decrease_api_counter now w))).

(** ** Sample exchanges and clients *)

(** An exchange that answers every query with [res] and no error. *)
Definition exchange_ok (res : pyvalue) : API :=
  {| respond := fun _ => Reply [] res; sent := [] |}.

(** An exchange that answers every query with an error list. *)
Definition exchange_error : API :=
  {| respond := fun _ => Reply ["EGeneral:Internal error"] PyNone; sent := [] |}.

(** A tier-2 client with the given transport, last query time and
    counter, and an empty standard output. *)
Definition tier2 (a : API) (t0 : datetime) (c : Z) : World :=
  {| self := {| api := a; time_of_last_query := t0; api_counter := c;
                limit := Some 15; factor := Some 3 |};
     stdout := [] |}.

(** A tier-2 client at time [t0] in front of an exchange that answers
    [v] without error, having sent the queries of [log]. *)
Definition answered_client (v : pyvalue) (t0 : datetime)
           (log : list string) (c : Z) : KrakenAPI :=
  {| api := {| respond := fun _ => Reply [] v; sent := log |};
     time_of_last_query := t0; api_counter := c;
     limit := Some 15; factor := Some 3 |}.

(** One call of a "ledger/trade history" method at clock reading [t0]. *)
Definition heavy (endpoint : string) (t0 : datetime) : check :=
  mkCheck "ledger/trade history" (api_method endpoint) t0.

(** ** The methods without the decorator

    [add_standard_order] and [cancel_open_order] (both marked UNTESTED
    in the source) have the skeleton of the other methods, hand back
    [res['result']] as it is, and carry no [@callratelimiter]: a call
    runs the method itself. *)
Definition add_standard_order : method := api_method "AddOrder".

Definition cancel_open_order : method := api_method "CancelOrder".

(** ** Calls of the decorated methods, exchanges and clocks *)

(** A call of one of the decorated methods of the class. *)
Definition is_decorated_call (c : check) : Prop :=
  exists name endpoint,
    In (name, check_type c, endpoint) decorated_methods /\
    check_func c = api_method endpoint.

(** An exchange that answers every query without error. *)
Definition answers_ok (a : API) : Prop :=
  forall endpoint, exists res, respond a endpoint = Reply [] res.

(** An exchange none of whose answers gets through: the transport
    fails or the response carries errors. *)
Definition always_fails (a : API) : Prop :=
  forall endpoint res, respond a endpoint <> Reply [] res.

(** The clock readings of the calls never go back, starting at [t]. *)
Fixpoint clock_nondecreasing (t : datetime) (cs : list check) : Prop :=
  match cs with
  | [] => True
  | c :: cs' => t <= check_now c /\ clock_nondecreasing (check_now c) cs'
  end.

(** Each call comes less than [f] seconds after the one before. *)
Fixpoint polled_within (f : Z) (t : datetime) (cs : list check) : Prop :=
  match cs with
  | [] => True
  | c :: cs' =>
      0 <= check_now c - t < of_seconds f /\ polled_within f (check_now c) cs'
  end.

(** The clock reading of the last call, [t] when there is none. *)
Definition last_reading (t : datetime) (cs : list check) : datetime :=
  last (map check_now cs) t.

(** ** Conversions between datetimes and unix times

    Here a [datetime] counts microseconds from [datetime(1970, 1, 1)]. *)

(** [datetime.min], year 1, and [datetime.max], the last microsecond of
    year 9999. *)
Definition min_datetime : datetime := of_seconds (-62135596800).
Definition max_datetime : datetime := of_seconds 253402300800 - 1.

(** The largest number of days of a [timedelta]. *)
Definition max_timedelta_days : Z := 999999999.

(** [datetime_to_unixtime], lines 1480-1498:
    [int((dt - datetime(1970, 1, 1)).total_seconds())].  The division
    of [total_seconds] is a floating point one and [int] truncates
    toward zero; below [2^34] seconds from the epoch (year 2514) the
    rounded quotient has the integer part of the exact one. *)
Definition datetime_to_unixtime (dt : datetime) : Z :=
  Z.quot (total_microseconds (datetime.sub dt 0)) us_per_second.

Definition exact_range (dt : datetime) : Prop :=
  Z.abs dt < of_seconds (2 ^ 34).

Inductive conversion (A : Type) : Type :=
| Converted (a : A)
| OverflowError.
Arguments Converted {A} a.
Arguments OverflowError {A}.

(** [unixtime_to_datetime], lines 1500-1517:
    [dt = datetime(1970, 1, 1) + timedelta(0, unixtime)], then
    [return dt].  Building the [timedelta] overflows beyond its largest
    number of days, the sum overflows outside [datetime.min] and
    [datetime.max]. *)
Definition unixtime_to_datetime (unixtime : Z) : conversion datetime :=
  if Z.abs (unixtime / seconds_per_day) >? max_timedelta_days
  then OverflowError
  else
    let dt := 0 + of_seconds unixtime in
    if (min_datetime <=? dt) && (dt <=? max_datetime)
    then Converted dt
    else OverflowError.

(** ** Results handed to the caller *)

(** An entry of a trace whose call handed a result back, that is a
    value other than [None]. *)
Definition is_result (rc : result pyvalue * Z) : bool :=
  match fst rc with
  | Return (PyObj _) => true
  | _ => false
  end.

Definition results_returned (tr : list (result pyvalue * Z)) : nat :=
  List.length (filter is_result tr).

(** ** One call, equationally *)

Section OneCall.

Variables (query_type : string) (func : method) (now : datetime).
Variables (w : World) (l f : Z).
Hypothesis Hfactor : factor (self w) = Some f.
Hypothesis Hf : f <> 0.

Lemma decrease_api_counter_eq :
  decrease_api_counter now w = (Return tt, with_self (decayed now f (self w)) w).
Proof.
  unfold decrease_api_counter, bind, get, getattr, int_div, modify, ret.
  rewrite Hfactor.
  destruct (Z.eqb_spec f 0) as [E | _]; [contradiction |].
  cbn [self stdout set_api_counter api_counter].
  unfold decayed, with_self, decr, set_time_of_last_query, set_api_counter.
  cbn [self stdout api api_counter time_of_last_query limit factor].
  generalize (Z.quot (elapsed_seconds now (time_of_last_query (self w))) f).
  intros d.
  destruct (Z.ltb_spec (api_counter (self w) - d) 0) as [Hneg | Hpos]; cbn.
  - rewrite Z.max_l by lia. reflexivity.
  - rewrite Z.max_r by lia. reflexivity.
Qed.

Lemma wrapper_eq :
  wrapper query_type func now w =
  return_api_call (determine_increment query_type) func
    (with_self (decayed now f (self w)) w).
Proof.
  unfold wrapper. unfold bind at 1. rewrite decrease_api_counter_eq. reflexivity.
Qed.

Hypothesis Hlimit : limit (self w) = Some l.

Lemma wrapper_refused :
  l <= api_counter (decayed now f (self w)) ->
  wrapper query_type func now w =
  (Return PyNone,
   {| self := decayed now f (self w);
      stdout := stdout w
                ++ [(limit_exceeded, api_counter (decayed now f (self w)))] |}).
Proof.
  intros Hc. rewrite wrapper_eq.
  unfold return_api_call, bind, get, getattr, print, ret, with_self.
  cbn [self stdout]. unfold decayed at 1.
  cbn [limit set_time_of_last_query set_api_counter]. rewrite Hlimit.
  destruct (Z.ltb_spec (api_counter (decayed now f (self w))) l);
    [lia | reflexivity].
Qed.

Lemma wrapper_admitted :
  api_counter (decayed now f (self w)) < l ->
  wrapper query_type func now w =
  let (r, s) := func (decayed now f (self w)) in
  match r, determine_increment query_type with
  | Return v, Some i =>
      (Return v, with_self (set_api_counter (api_counter s + i) s) w)
  | Return v, None => (Raise (UnboundLocalError "incr"), with_self s w)
  | Raise e, _ => (Raise e, with_self s w)
  end.
Proof.
  intros Hc. rewrite wrapper_eq.
  unfold return_api_call, bind, get, getattr, call, ret, with_self.
  cbn [self stdout]. unfold decayed at 1.
  cbn [limit set_time_of_last_query set_api_counter]. rewrite Hlimit.
  destruct (Z.ltb_spec (api_counter (decayed now f (self w))) l); [| lia].
  cbn [self stdout].
  destruct (func (decayed now f (self w))) as [[v | e] s]; [| reflexivity].
  unfold local, modify, raise.
  destruct (determine_increment query_type); reflexivity.
Qed.

End OneCall.

(** ** Basic facts *)

Lemma determine_increment_cases (query_type : string) (i : Z) :
  determine_increment query_type = Some i -> i = 1 \/ i = 2.
Proof.
  unfold determine_increment.
  destruct (query_type =? "ledger/trade history")%string.
  - intros [= <-]. now right.
  - destruct (query_type =? "other")%string; [intros [= <-]; now left | discriminate].
Qed.

Lemma api_method_keeps_limiter (endpoint : string) :
  keeps_limiter (api_method endpoint).
Proof.
  intros s. unfold api_method, query.
  destruct (respond (api s) endpoint) as [[| e es] res | e]; cbn; auto.
Qed.

Lemma api_method_sent (endpoint : string) (s : KrakenAPI) :
  sent (api (snd (api_method endpoint s))) = endpoint :: sent (api s).
Proof.
  unfold api_method, query.
  destruct (respond (api s) endpoint) as [[| e es] res | e]; reflexivity.
Qed.

Lemma counter_after_decay_eq (now : datetime) (w : World) (f : Z) :
  factor (self w) = Some f -> f <> 0 ->
  counter_after_decay now w = api_counter (decayed now f (self w)).
Proof.
  intros Hfactor Hf. unfold counter_after_decay.
  now rewrite (decrease_api_counter_eq now w f Hfactor Hf).
Qed.

Lemma decayed_counter (now : datetime) (f : Z) (s : KrakenAPI) :
  api_counter (decayed now f s) = Z.max 0 (api_counter s - decr now f s).
Proof. reflexivity. Qed.

(** When [self.factor] is unset or zero the call raises on line 58 and
    nothing has changed. *)
Lemma wrapper_no_factor (query_type : string) (func : method)
      (now : datetime) (w : World) :
  factor (self w) = None ->
  wrapper query_type func now w = (Raise (AttributeError "factor"), w).
Proof.
  intros H. unfold wrapper, decrease_api_counter, bind, get, getattr.
  now rewrite H.
Qed.

Lemma wrapper_zero_factor (query_type : string) (func : method)
      (now : datetime) (w : World) :
  factor (self w) = Some 0 ->
  wrapper query_type func now w = (Raise ZeroDivisionError, w).
Proof.
  intros H. unfold wrapper, decrease_api_counter, bind, get, getattr, int_div.
  now rewrite H.
Qed.

(** When [self.limit] is unset the call raises on line 65, after the
    decay. *)
Lemma wrapper_no_limit (query_type : string) (func : method)
      (now : datetime) (w : World) (f : Z) :
  factor (self w) = Some f -> f <> 0 -> limit (self w) = None ->
  wrapper query_type func now w =
  (Raise (AttributeError "limit"), with_self (decayed now f (self w)) w).
Proof.
  intros Hfactor Hf Hlimit. rewrite (wrapper_eq _ _ _ _ f Hfactor Hf).
  unfold return_api_call, bind, get, getattr, with_self.
  cbn [self stdout]. unfold decayed at 1.
  cbn [limit set_time_of_last_query set_api_counter]. now rewrite Hlimit.
Qed.

(** ** Arithmetic of the decrement *)

Section Decrement.

Variables (now : datetime) (f : Z) (s : KrakenAPI).
Hypothesis Hf : 0 < f.

Lemma elapsed_seconds_range :
  0 <= elapsed_seconds now (time_of_last_query s) < seconds_per_day.
Proof.
  unfold elapsed_seconds, datetime.sub, normalize, seconds_per_day; cbn.
  apply Z.mod_pos_bound. lia.
Qed.

Lemma decr_nonneg : 0 <= decr now f s.
Proof.
  unfold decr. apply Z.quot_pos; [apply elapsed_seconds_range | lia].
Qed.

(** Within a day of the last check the decrement is the number of
    whole decay periods that have elapsed, whatever the remainder. *)
Lemma decr_within_a_day (k r : Z) :
  0 <= k -> 0 <= r < of_seconds f ->
  now - time_of_last_query s = k * of_seconds f + r ->
  now - time_of_last_query s < of_seconds seconds_per_day ->
  decr now f s = k.
Proof.
  unfold of_seconds, seconds_per_day, us_per_second.
  intros Hk Hr He Hday.
  unfold decr, elapsed_seconds, datetime.sub, normalize,
    seconds_per_day, us_per_second; cbn [seconds].
  set (elapsed := now - time_of_last_query s) in *.
  assert (H0 : 0 <= elapsed) by nia.
  assert (Hs : 0 <= elapsed / 1000000 < 86400).
  { split; [apply Z.div_pos; lia | apply Z.div_lt_upper_bound; lia]. }
  rewrite Z.mod_small by exact Hs.
  rewrite Z.quot_div_nonneg by lia.
  rewrite Z.div_div by lia.
  symmetry. apply (Z.div_unique _ _ k r); lia.
Qed.

End Decrement.

(** ** The invariant of the counter *)

Lemma wrapper_counter_nonneg (query_type : string) (func : method)
      (now : datetime) (w : World) :
  keeps_limiter func ->
  0 <= api_counter (self w) ->
  0 <= api_counter (self (snd (wrapper query_type func now w))).
Proof.
  intros Hkeep Hc.
  destruct (factor (self w)) as [f |] eqn:Hfactor;
    [| now rewrite wrapper_no_factor].
  destruct (Z.eq_dec f 0) as [-> | Hf]; [now rewrite wrapper_zero_factor |].
  assert (Hd : 0 <= api_counter (decayed now f (self w)))
    by (rewrite decayed_counter; lia).
  destruct (limit (self w)) as [l |] eqn:Hlimit;
    [| now rewrite (wrapper_no_limit _ _ _ _ f)].
  destruct (Z.lt_ge_cases (api_counter (decayed now f (self w))) l) as [Hlt | Hge].
  - rewrite (wrapper_admitted _ _ _ _ l f Hfactor Hf Hlimit Hlt).
    destruct (Hkeep (decayed now f (self w))) as [Hcnt _].
    destruct (func (decayed now f (self w))) as [[v | e] s']; cbn in Hcnt.
    + destruct (determine_increment query_type) as [i |] eqn:Hi; cbn; [| lia].
      destruct (determine_increment_cases _ _ Hi); lia.
    + cbn. lia.
  - now rewrite (wrapper_refused _ _ _ _ l f Hfactor Hf Hlimit Hge).
Qed.

Lemma trace_counters_nonneg (checks : list check) :
  Forall (fun c => keeps_limiter (check_func c)) checks ->
  forall w, 0 <= api_counter (self w) ->
  Forall (fun rc => 0 <= snd rc) (trace checks w).
Proof.
  induction 1 as [| c cs Hc _ IH]; intros w Hw; cbn [trace].
  - constructor.
  - pose proof (wrapper_counter_nonneg (check_type c) _ (check_now c) w Hc Hw) as Hstep.
    unfold step, callratelimiter, decorate_func in *.
    destruct (wrapper (check_type c) (check_func c) (check_now c) w) as [r w'].
    constructor; [exact Hstep | apply IH; exact Hstep].
Qed.

Lemma init_returns (a : API) (tier : Z) (t0 : datetime) (client : KrakenAPI) :
  __init__ a tier t0 = Return client ->
  api_counter client = 0 /\ time_of_last_query client = t0 /\ api client = a.
Proof.
  unfold __init__.
  destruct (tier =? 2); [| destruct (tier =? 3); [| destruct (tier =? 4)]];
    intros [= <-]; cbn; auto.
Qed.

(** ** C1: the decay of the counter *)

(** C1 (decay correctness): after [k * decay_period + r] of elapsed
    time the counter should have gone down by [k].  The code reads
    [timedelta.seconds], which leaves out whole days: a tier-2 client
    (one unit every three seconds) whose counter is 16 and whose last
    check was exactly one day ago, [28800] periods, gets a decrement
    of [0], keeps its counter at 16 and refuses the call. *)
Theorem decay_drops_whole_days :
  forall (a : API) (t0 : datetime),
    let w := tier2 a t0 16 in
    let now := t0 + of_seconds 86400 in
    now - time_of_last_query (self w) = 28800 * of_seconds 3 + 0 /\
    decr now 3 (self w) = 0 /\
    counter_after_decay now w = 16 /\
    callratelimiter "other" (api_method "Time") now w =
    (Return PyNone,
     {| self := set_time_of_last_query now (self w);
        stdout := [(limit_exceeded, 16)] |}).
Proof.
  intros a t0 w now.
  assert (Hd : decr now 3 (self w) = 0).
  { unfold decr, elapsed_seconds, datetime.sub, normalize; cbn [seconds].
    replace (now - time_of_last_query (self w)) with (of_seconds 86400)
      by (subst now w; cbn; lia).
    reflexivity. }
  assert (Hc : counter_after_decay now w = 16).
  { rewrite (counter_after_decay_eq now w 3) by (reflexivity || lia).
    rewrite decayed_counter, Hd. reflexivity. }
  repeat split;
    [subst now w; cbn; unfold of_seconds, us_per_second; lia
    | exact Hd | exact Hc |].
  unfold callratelimiter, decorate_func.
  rewrite (wrapper_refused _ _ now w 15 3) by
    (reflexivity || lia || (rewrite decayed_counter, Hd; cbn; lia)).
  unfold decayed. rewrite Hd. reflexivity.
Qed.

(** ** C2: the counter is never negative *)

(** C2 (non-negativity): starting from a client built by [__init__],
    for any tier, after each call of any sequence of calls at any
    clock readings the counter is at least 0; and a decay that would
    take the counter below zero leaves it at 0. *)
Theorem api_counter_never_negative :
  forall (a : API) (tier : Z) (t0 : datetime) (client : KrakenAPI)
         (out : list line) (checks : list check),
    __init__ a tier t0 = Return client ->
    Forall (fun c => keeps_limiter (check_func c)) checks ->
    Forall (fun rc => 0 <= snd rc)
           (trace checks {| self := client; stdout := out |}) /\
    (forall (now : datetime) (w : World) (f : Z),
        factor (self w) = Some f -> f <> 0 ->
        api_counter (self w) - decr now f (self w) < 0 ->
        counter_after_decay now w = 0).
Proof.
  intros a tier t0 client out checks Hinit Hkeep. split.
  - apply trace_counters_nonneg; [exact Hkeep |].
    destruct (init_returns _ _ _ _ Hinit) as [H0 _]. cbn [self]. lia.
  - intros now w f Hfactor Hf Hneg.
    rewrite (counter_after_decay_eq now w f Hfactor Hf), decayed_counter. lia.
Qed.

Lemma api_counter_never_negative_witness :
  let client := {| api := exchange_ok PyNone; time_of_last_query := 0;
                   api_counter := 0; limit := Some 15; factor := Some 3 |} in
  let checks := [ mkCheck "ledger/trade history" (api_method "Ledgers") 0;
                  mkCheck "other" (api_method "Time") (of_seconds 10) ] in
  Forall (fun rc => 0 <= snd rc)
         (trace checks {| self := client; stdout := [] |}) /\
  (forall (now : datetime) (w : World) (f : Z),
      factor (self w) = Some f -> f <> 0 ->
      api_counter (self w) - decr now f (self w) < 0 ->
      counter_after_decay now w = 0).
Proof.
  apply (api_counter_never_negative (exchange_ok PyNone) 2 0).
  - reflexivity.
  - repeat constructor; apply api_method_keeps_limiter.
Defined.

(** ** C3: the admission threshold *)

Lemma cons_neq {A} (x : A) (xs : list A) : x :: xs <> xs.
Proof.
  intros H. apply (f_equal (@List.length A)) in H. cbn in H. lia.
Qed.

Lemma snoc_neq {A} (x : A) (xs : list A) : xs ++ [x] <> xs.
Proof.
  intros H. apply (f_equal (@List.length A)) in H.
  rewrite length_app in H. cbn in H. lia.
Qed.

(** C3 (admission threshold): a call of a decorated method reaches the
    transport exactly when the counter, after the decay, is strictly
    below the limit; at or above the limit the call is refused: the
    refusal message is printed and nothing is sent. *)
Theorem admitted_iff_below_limit :
  forall (query_type endpoint : string) (now : datetime) (w : World) (l f : Z),
    factor (self w) = Some f -> f <> 0 ->
    limit (self w) = Some l ->
    let c := counter_after_decay now w in
    let w' := snd (callratelimiter query_type (api_method endpoint) now w) in
    (c < l <-> sent (api (self w')) = endpoint :: sent (api (self w))) /\
    (l <= c <-> sent (api (self w')) = sent (api (self w))) /\
    (l <= c <-> stdout w' = stdout w ++ [(limit_exceeded, c)]) /\
    (c < l <-> stdout w' = stdout w).
Proof.
  intros query_type endpoint now w l f Hfactor Hf Hlimit c w'.
  assert (Hc : c = api_counter (decayed now f (self w)))
    by (apply counter_after_decay_eq; assumption).
  assert (Hadm : c < l ->
                 sent (api (self w')) = endpoint :: sent (api (self w)) /\
                 stdout w' = stdout w).
  { intros Hlt. subst w'. unfold callratelimiter, decorate_func.
    rewrite (wrapper_admitted _ _ _ _ l f Hfactor Hf Hlimit) by lia.
    pose proof (api_method_sent endpoint (decayed now f (self w))) as Hsent.
    destruct (api_method endpoint (decayed now f (self w))) as [[v | e] s'];
      cbn in Hsent; [destruct (determine_increment query_type) |];
      cbn; now rewrite Hsent. }
  assert (Href : l <= c ->
                 sent (api (self w')) = sent (api (self w)) /\
                 stdout w' = stdout w ++ [(limit_exceeded, c)]).
  { intros Hge. subst w'. unfold callratelimiter, decorate_func.
    rewrite (wrapper_refused _ _ _ _ l f Hfactor Hf Hlimit) by lia.
    cbn. now rewrite Hc. }
  repeat split; intros H.
  - now apply Hadm.
  - destruct (Z.lt_ge_cases c l) as [Hlt | Hge]; [exact Hlt |].
    destruct (Href Hge) as [Hs _]. rewrite Hs in H.
    symmetry in H. now apply cons_neq in H.
  - now apply Href.
  - destruct (Z.lt_ge_cases c l) as [Hlt | Hge]; [| exact Hge].
    destruct (Hadm Hlt) as [Hs _]. rewrite Hs in H. now apply cons_neq in H.
  - now apply Href.
  - destruct (Z.lt_ge_cases c l) as [Hlt | Hge]; [| exact Hge].
    destruct (Hadm Hlt) as [_ Hs]. rewrite Hs in H.
    symmetry in H. now apply snoc_neq in H.
  - now apply Hadm.
  - destruct (Z.lt_ge_cases c l) as [Hlt | Hge]; [exact Hlt |].
    destruct (Href Hge) as [_ Hs]. rewrite Hs in H. now apply snoc_neq in H.
Qed.

Lemma admitted_iff_below_limit_witness :
  let w := tier2 (exchange_ok PyNone) 0 14 in
  let c := counter_after_decay 0 w in
  let w' := snd (callratelimiter "other" (api_method "Balance") 0 w) in
  (c < 15 <-> sent (api (self w')) = "Balance" :: sent (api (self w))) /\
  (15 <= c <-> sent (api (self w')) = sent (api (self w))) /\
  (15 <= c <-> stdout w' = stdout w ++ [(limit_exceeded, c)]) /\
  (c < 15 <-> stdout w' = stdout w).
Proof.
  apply (admitted_iff_below_limit "other" "Balance" 0
           (tier2 (exchange_ok PyNone) 0 14) 15 3).
  - reflexivity.
  - lia.
  - reflexivity.
Defined.

(** ** C4: a refused call *)

(** C4 (refusal is free and blocks the transport): when a call is
    refused the counter is the one the decay left, the client is
    otherwise as the decay left it, the transport is untouched, and
    the outcome is the same whatever the wrapped function is: it is
    not invoked. *)
Theorem refusal_is_free :
  forall (query_type : string) (func : method) (now : datetime)
         (w : World) (l f : Z),
    factor (self w) = Some f -> f <> 0 ->
    limit (self w) = Some l ->
    l <= counter_after_decay now w ->
    let w' := snd (callratelimiter query_type func now w) in
    api_counter (self w') = counter_after_decay now w /\
    self w' = self (snd (decrease_api_counter now w)) /\
    api (self w') = api (self w) /\
    (forall func' : method,
        callratelimiter query_type func' now w =
        callratelimiter query_type func now w).
Proof.
  intros query_type func now w l f Hfactor Hf Hlimit Hge w'.
  rewrite (counter_after_decay_eq now w f Hfactor Hf) in *.
  subst w'. unfold callratelimiter, decorate_func.
  rewrite (wrapper_refused _ func _ _ l f Hfactor Hf Hlimit Hge).
  rewrite (decrease_api_counter_eq now w f Hfactor Hf).
  repeat split. intros func'.
  now rewrite (wrapper_refused _ func' _ _ l f Hfactor Hf Hlimit Hge).
Qed.

Lemma refusal_is_free_witness :
  let w := tier2 (exchange_ok PyNone) 0 16 in
  let w' := snd (callratelimiter "other" (api_method "Balance") (of_seconds 2) w) in
  api_counter (self w') = counter_after_decay (of_seconds 2) w /\
  self w' = self (snd (decrease_api_counter (of_seconds 2) w)) /\
  api (self w') = api (self w) /\
  (forall func' : method,
      callratelimiter "other" func' (of_seconds 2) w =
      callratelimiter "other" (api_method "Balance") (of_seconds 2) w).
Proof.
  apply (refusal_is_free "other" (api_method "Balance") (of_seconds 2)
           (tier2 (exchange_ok PyNone) 0 16) 15 3).
  - reflexivity.
  - lia.
  - reflexivity.
  - vm_compute. discriminate.
Defined.

(** ** C5: the cost of a call *)

(** C5 as stated fails: an admitted call of the "ledger/trade history"
    class whose wrapped method raises (here the exchange answers with
    an error list) reaches the transport and leaves the counter where
    the decay left it, not 2 higher. *)
Lemma charge_skipped_when_call_raises :
  let w := tier2 exchange_error 0 0 in
  let r := callratelimiter "ledger/trade history" (api_method "Ledgers") 0 w in
  counter_after_decay 0 w < 15 /\
  sent (api (self (snd r))) = ["Ledgers"] /\
  fst r = Raise (KrakenAPIError ["EGeneral:Internal error"]) /\
  api_counter (self (snd r)) <> counter_after_decay 0 w + 2.
Proof.
  vm_compute. repeat split; discriminate.
Qed.

(** C5 (cost accounting, amended): an admitted call whose wrapped
    function returns normally raises the counter by exactly 2 in the
    "ledger/trade history" class and by exactly 1 in the "other"
    class; no other increment exists, and every decorated method is in
    one of the two classes. *)
Theorem admitted_call_cost :
  forall (query_type : string) (func : method) (now : datetime)
         (w : World) (l f : Z) (v : pyvalue),
    factor (self w) = Some f -> f <> 0 ->
    limit (self w) = Some l ->
    keeps_limiter func ->
    counter_after_decay now w < l ->
    fst (func (self (snd (decrease_api_counter now w)))) = Return v ->
    let r := callratelimiter query_type func now w in
    (query_type = "ledger/trade history" ->
     fst r = Return v /\
     api_counter (self (snd r)) = counter_after_decay now w + 2) /\
    (query_type = "other" ->
     fst r = Return v /\
     api_counter (self (snd r)) = counter_after_decay now w + 1) /\
    (forall i, determine_increment query_type = Some i -> i = 1 \/ i = 2) /\
    Forall (fun m => snd (fst m) = "ledger/trade history" \/ snd (fst m) = "other")
           decorated_methods.
Proof.
  intros query_type func now w l f v Hfactor Hf Hlimit Hkeep Hlt Hret r.
  assert (Hstep : forall i, determine_increment query_type = Some i ->
                  fst r = Return v /\
                  api_counter (self (snd r)) = counter_after_decay now w + i).
  { intros i Hi. subst r. unfold callratelimiter, decorate_func.
    rewrite (counter_after_decay_eq now w f Hfactor Hf) in *.
    rewrite (decrease_api_counter_eq now w f Hfactor Hf) in Hret.
    rewrite (wrapper_admitted _ _ _ _ l f Hfactor Hf Hlimit Hlt).
    destruct (Hkeep (decayed now f (self w))) as [Hcnt _].
    cbn [snd self with_self] in Hret.
    destruct (func (decayed now f (self w))) as [r' s']. cbn in Hret, Hcnt.
    subst r'. rewrite Hi. cbn. now rewrite Hcnt. }
  repeat split.
  - apply (Hstep 2). now subst query_type.
  - apply (Hstep 2). now subst query_type.
  - apply (Hstep 1). now subst query_type.
  - apply (Hstep 1). now subst query_type.
  - apply determine_increment_cases.
  - apply Forall_forall. intros m Hin. cbn in Hin.
    repeat (destruct Hin as [<- | Hin]; [cbn; auto |]). contradiction.
Qed.

Lemma admitted_call_cost_witness :
  let w := tier2 (exchange_ok (PyObj "ledger")) 0 13 in
  let r := callratelimiter "ledger/trade history" (api_method "QueryLedgers")
             (of_seconds 4) w in
  ("ledger/trade history" = "ledger/trade history" ->
   fst r = Return (PyObj "ledger") /\
   api_counter (self (snd r)) = counter_after_decay (of_seconds 4) w + 2) /\
  ("ledger/trade history" = "other" ->
   fst r = Return (PyObj "ledger") /\
   api_counter (self (snd r)) = counter_after_decay (of_seconds 4) w + 1) /\
  (forall i, determine_increment "ledger/trade history" = Some i -> i = 1 \/ i = 2) /\
  Forall (fun m => snd (fst m) = "ledger/trade history" \/ snd (fst m) = "other")
         decorated_methods.
Proof.
  apply (admitted_call_cost "ledger/trade history" (api_method "QueryLedgers")
           (of_seconds 4) (tier2 (exchange_ok (PyObj "ledger")) 0 13) 15 3
           (PyObj "ledger")).
  - reflexivity.
  - lia.
  - reflexivity.
  - apply api_method_keeps_limiter.
  - vm_compute. reflexivity.
  - reflexivity.
Defined.

(** ** C6: eight heavy calls at tier 2 *)

Lemma decr_same_instant (f : Z) (s : KrakenAPI) :
  decr (time_of_last_query s) f s = 0.
Proof.
  unfold decr, elapsed_seconds, datetime.sub, normalize; cbn [seconds].
  rewrite Z.sub_diag. reflexivity.
Qed.

Lemma decayed_same_instant (f : Z) (s : KrakenAPI) :
  0 <= api_counter s -> decayed (time_of_last_query s) f s = s.
Proof.
  intros Hc. unfold decayed. rewrite decr_same_instant.
  destruct s as [a t c l f']. unfold set_time_of_last_query, set_api_counter.
  cbn in *. f_equal. lia.
Qed.

Section BackToBack.

Variables (v : pyvalue) (t0 : datetime) (endpoint : string).

Lemma heavy_call_admitted (log : list string) (c : Z) (out : list line) :
  0 <= c < 15 ->
  step (heavy endpoint t0) {| self := answered_client v t0 log c; stdout := out |} =
  (Return v, {| self := answered_client v t0 (endpoint :: log) (c + 2); stdout := out |}).
Proof.
  intros Hc. unfold step, callratelimiter, decorate_func, heavy.
  cbn [check_type check_func check_now].
  assert (Hd : decayed t0 3 (answered_client v t0 log c) = answered_client v t0 log c).
  { apply (decayed_same_instant 3 (answered_client v t0 log c)). cbn. lia. }
  rewrite (wrapper_admitted _ _ _ _ 15 3);
    [| reflexivity | lia | reflexivity | cbn [self]; rewrite Hd; cbn; lia].
  cbn [self]. rewrite Hd. reflexivity.
Qed.

Lemma heavy_call_refused (log : list string) (c : Z) (out : list line) :
  15 <= c ->
  step (heavy endpoint t0) {| self := answered_client v t0 log c; stdout := out |} =
  (Return PyNone,
   {| self := answered_client v t0 log c; stdout := out ++ [(limit_exceeded, c)] |}).
Proof.
  intros Hc. unfold step, callratelimiter, decorate_func, heavy.
  cbn [check_type check_func check_now].
  assert (Hd : decayed t0 3 (answered_client v t0 log c) = answered_client v t0 log c).
  { apply (decayed_same_instant 3 (answered_client v t0 log c)). cbn. lia. }
  rewrite (wrapper_refused _ _ _ _ 15 3);
    [| reflexivity | lia | reflexivity | cbn [self]; rewrite Hd; cbn; lia].
  cbn [self stdout]. rewrite Hd. reflexivity.
Qed.

(** C6 (scenario A): a tier-2 client (limit 15) starts at counter 0;
    nine "ledger/trade history" calls follow with no time elapsed.
    The first eight are admitted, the counter going 2, 4, ..., 14
    and then 16; the ninth is refused, the counter stays at 16 and
    the refusal message is printed once. *)
Theorem scenario_A_overshoot :
  exists c0 : KrakenAPI,
    __init__ (exchange_ok v) 2 t0 = Return c0 /\
    limit c0 = Some 15 /\ api_counter c0 = 0 /\
    let w0 := {| self := c0; stdout := [] |} in
    trace (repeat (heavy endpoint t0) 9) w0 =
    [ (Return v, 2); (Return v, 4); (Return v, 6); (Return v, 8);
      (Return v, 10); (Return v, 12); (Return v, 14); (Return v, 16);
      (Return PyNone, 16) ] /\
    stdout (run (repeat (heavy endpoint t0) 9) w0) = [(limit_exceeded, 16)] /\
    sent (api (self (run (repeat (heavy endpoint t0) 9) w0))) = repeat endpoint 8.
Proof.
  exists (answered_client v t0 [] 0). repeat split.
  - cbn [repeat trace].
    do 8 (rewrite heavy_call_admitted by lia; cbn [self api_counter answered_client]).
    rewrite heavy_call_refused by lia. reflexivity.
  - cbn [repeat run].
    do 8 (rewrite heavy_call_admitted by lia; cbn [snd]).
    rewrite heavy_call_refused by lia. reflexivity.
  - cbn [repeat run].
    do 8 (rewrite heavy_call_admitted by lia; cbn [snd]).
    rewrite heavy_call_refused by lia. reflexivity.
Qed.

End BackToBack.

(** ** C7: a tier that [__init__] does not know *)

Lemma init_unknown_tier (a : API) (tier : Z) (now : datetime) :
  tier <> 2 -> tier <> 3 -> tier <> 4 ->
  __init__ a tier now =
  Return {| api := a; time_of_last_query := now; api_counter := 0;
            limit := None; factor := None |}.
Proof.
  intros H2 H3 H4. unfold __init__.
  destruct (Z.eqb_spec tier 2); [contradiction |].
  destruct (Z.eqb_spec tier 3); [contradiction |].
  destruct (Z.eqb_spec tier 4); [contradiction | reflexivity].
Qed.

(** C7 (invalid tier): construction with [tier = 5] should fail.  The
    code returns a client all the same, with neither [limit] nor
    [factor] set; the failure only shows at the first decorated call,
    which raises [AttributeError] on line 58 and changes nothing. *)
Theorem init_accepts_unknown_tier :
  forall (a : API) (now : datetime),
    let bare := {| api := a; time_of_last_query := now; api_counter := 0;
                   limit := None; factor := None |} in
    __init__ a 5 now = Return bare /\
    (forall (query_type : string) (func : method) (t : datetime)
            (out : list line),
        callratelimiter query_type func t {| self := bare; stdout := out |} =
        (Raise (AttributeError "factor"), {| self := bare; stdout := out |})).
Proof.
  intros a now bare. split; [reflexivity |].
  intros query_type func t out. unfold callratelimiter, decorate_func.
  now apply wrapper_no_factor.
Qed.

(** ** C8: the clock is read and stored on every check *)

(** On every check of a configured client lines 56-62 run before the
    test of line 65: [time_of_last_query] becomes [now], the counter
    loses the decrement of line 58, and the decision of lines 64-73
    runs on that client.  The new timestamp is still there when the
    call ends, refused or admitted (for a wrapped function that leaves
    the limiter alone). *)
Lemma time_advances_on_every_check :
  forall (query_type : string) (func : method) (now : datetime)
         (w : World) (l f : Z),
    factor (self w) = Some f -> f <> 0 ->
    limit (self w) = Some l ->
    let d := decrease_api_counter now w in
    let r := callratelimiter query_type func now w in
    fst d = Return tt /\
    time_of_last_query (self (snd d)) = now /\
    api_counter (self (snd d)) =
      Z.max 0 (api_counter (self w) - decr now f (self w)) /\
    r = return_api_call (determine_increment query_type) func (snd d) /\
    (l <= counter_after_decay now w ->
     time_of_last_query (self (snd r)) = now) /\
    (counter_after_decay now w < l -> keeps_limiter func ->
     time_of_last_query (self (snd r)) = now).
Proof.
  intros query_type func now w l f Hfactor Hf Hlimit d r.
  subst d r. unfold callratelimiter, decorate_func.
  rewrite (counter_after_decay_eq now w f Hfactor Hf).
  rewrite (decrease_api_counter_eq now w f Hfactor Hf).
  repeat split.
  - apply (wrapper_eq _ _ _ _ f Hfactor Hf).
  - intros Hge. now rewrite (wrapper_refused _ _ _ _ l f Hfactor Hf Hlimit Hge).
  - intros Hlt Hkeep.
    rewrite (wrapper_admitted _ _ _ _ l f Hfactor Hf Hlimit Hlt).
    destruct (Hkeep (decayed now f (self w))) as (_ & Htime & _).
    destruct (func (decayed now f (self w))) as [[v | e] s']; cbn in Htime;
      [destruct (determine_increment query_type) |]; exact Htime.
Qed.

(** C8 (time always advances): every check, admitted or refused,
    should apply the decay for the elapsed time and store the clock
    reading before it decides.  The timestamp is stored, but the decay
    is the one of C1: for a tier-2 client whose last check was exactly
    one day ago, [28800] decay periods, the check stores [now] and
    decides on the counter as it was.  At 16 the call is refused with
    the counter still at 16; at 14 it is admitted and charged from 14,
    where the decay for the elapsed time leaves 0 in both cases. *)
Theorem day_late_check_stores_time_without_decay :
  forall (t0 : datetime) (res : pyvalue),
    let now := t0 + of_seconds 86400 in
    let held := tier2 (exchange_ok res) t0 16 in
    let free := tier2 (exchange_ok res) t0 14 in
    let refused := callratelimiter "other" (api_method "Time") now held in
    let admitted := callratelimiter "other" (api_method "Time") now free in
    now - t0 = 28800 * of_seconds 3 + 0 /\
    Z.max 0 (16 - 28800) = 0 /\ Z.max 0 (14 - 28800) = 0 /\
    (fst refused = Return PyNone /\
     time_of_last_query (self (snd refused)) = now /\
     counter_after_decay now held = 16 /\
     api_counter (self (snd refused)) = 16 /\
     sent (api (self (snd refused))) = []) /\
    (fst admitted = Return res /\
     time_of_last_query (self (snd admitted)) = now /\
     counter_after_decay now free = 14 /\
     api_counter (self (snd admitted)) = 15 /\
     sent (api (self (snd admitted))) = ["Time"]).
Proof.
  intros t0 res now held free refused admitted.
  assert (Hd : forall c, decr now 3 (self (tier2 (exchange_ok res) t0 c)) = 0).
  { intros c. unfold decr, elapsed_seconds, datetime.sub, normalize;
      cbn [seconds].
    replace (now - time_of_last_query (self (tier2 (exchange_ok res) t0 c)))
      with (of_seconds 86400) by (subst now; cbn; lia).
    reflexivity. }
  assert (Hdec : forall c, 0 <= c ->
                 decayed now 3 (self (tier2 (exchange_ok res) t0 c))
                 = self (tier2 (exchange_ok res) now c)).
  { intros c Hpos. unfold decayed. rewrite Hd.
    unfold tier2, set_time_of_last_query, set_api_counter. cbn.
    f_equal. lia. }
  split; [subst now; unfold of_seconds, us_per_second; lia |].
  split; [reflexivity |]. split; [reflexivity |]. split.
  - subst refused held. unfold callratelimiter, decorate_func.
    rewrite (counter_after_decay_eq now _ 3) by (reflexivity || lia).
    rewrite (wrapper_refused _ _ now _ 15 3)
      by (reflexivity || lia || (cbn [self]; rewrite Hdec by lia; cbn; lia)).
    cbn [self]. rewrite Hdec by lia. cbn. auto.
  - subst admitted free. unfold callratelimiter, decorate_func.
    rewrite (counter_after_decay_eq now _ 3) by (reflexivity || lia).
    rewrite (wrapper_admitted _ _ now _ 15 3)
      by (reflexivity || lia || (cbn [self]; rewrite Hdec by lia; cbn; lia)).
    cbn [self]. rewrite Hdec by lia. cbn. auto.
Qed.

(** ** C9: how a refusal is reported *)

(** C9 (refusal is a printed message and [None]): a refused call
    prints the message with the counter and returns [None], no
    exception is raised; an admitted call whose wrapped function
    returns [None] hands the caller the very same value. *)
Theorem refusal_returns_none :
  forall (query_type : string) (func : method) (now : datetime)
         (w : World) (l f : Z),
    factor (self w) = Some f -> f <> 0 ->
    limit (self w) = Some l ->
    l <= counter_after_decay now w ->
    let r := callratelimiter query_type func now w in
    fst r = Return PyNone /\
    stdout (snd r) = stdout w ++ [(limit_exceeded, counter_after_decay now w)] /\
    (forall (query_type' : string) (func' : method) (now' : datetime)
            (w' : World) (l' f' i : Z),
        factor (self w') = Some f' -> f' <> 0 ->
        limit (self w') = Some l' ->
        counter_after_decay now' w' < l' ->
        determine_increment query_type' = Some i ->
        fst (func' (self (snd (decrease_api_counter now' w')))) = Return PyNone ->
        fst (callratelimiter query_type' func' now' w') = fst r).
Proof.
  intros query_type func now w l f Hfactor Hf Hlimit Hge r.
  assert (Hr : fst r = Return PyNone /\
               stdout (snd r) =
               stdout w ++ [(limit_exceeded, counter_after_decay now w)]).
  { subst r. unfold callratelimiter, decorate_func.
    rewrite (counter_after_decay_eq now w f Hfactor Hf) in *.
    now rewrite (wrapper_refused _ _ _ _ l f Hfactor Hf Hlimit Hge). }
  destruct Hr as [Hfst Hout]. repeat split; [exact Hfst | exact Hout |].
  intros query_type' func' now' w' l' f' i Hfactor' Hf' Hlimit' Hlt Hi Hnone.
  rewrite Hfst. unfold callratelimiter, decorate_func.
  rewrite (counter_after_decay_eq now' w' f' Hfactor' Hf') in Hlt.
  rewrite (decrease_api_counter_eq now' w' f' Hfactor' Hf') in Hnone.
  rewrite (wrapper_admitted _ _ _ _ l' f' Hfactor' Hf' Hlimit' Hlt).
  cbn [snd self with_self] in Hnone.
  destruct (func' (decayed now' f' (self w'))) as [r' s']. cbn in Hnone.
  subst r'. now rewrite Hi.
Qed.

Lemma refusal_returns_none_witness :
  let w := tier2 (exchange_ok (PyObj "ledger")) 0 16 in
  let r := callratelimiter "ledger/trade history" (api_method "Ledgers") 0 w in
  let w' := tier2 (exchange_ok PyNone) 0 0 in
  fst r = Return PyNone /\
  stdout (snd r) = [(limit_exceeded, 16)] /\
  fst (callratelimiter "other" (api_method "Balance") 0 w') = fst r.
Proof.
  destruct (refusal_returns_none "ledger/trade history" (api_method "Ledgers") 0
              (tier2 (exchange_ok (PyObj "ledger")) 0 16) 15 3
              eq_refl ltac:(lia) eq_refl ltac:(vm_compute; discriminate))
    as (Hfst & Hout & Hsame).
  split; [exact Hfst | split; [exact Hout |]].
  apply (Hsame "other" (api_method "Balance") 0
           (tier2 (exchange_ok PyNone) 0 0) 15 3 1).
  - reflexivity.
  - lia.
  - reflexivity.
  - vm_compute. reflexivity.
  - reflexivity.
  - reflexivity.
Defined.

(** ** C10: a call that raises is not charged *)

(** C10 (no charge on transport failure): when an admitted call's
    wrapped function raises, the exception reaches the caller, the
    client is as the wrapped function left it, with the counter still
    at its value after the decay (the increment of line 67 has not
    run) and [time_of_last_query] already at [now]. *)
Theorem failed_call_is_not_charged :
  forall (query_type : string) (func : method) (now : datetime)
         (w : World) (l f : Z) (e : exn),
    factor (self w) = Some f -> f <> 0 ->
    limit (self w) = Some l ->
    keeps_limiter func ->
    counter_after_decay now w < l ->
    fst (func (self (snd (decrease_api_counter now w)))) = Raise e ->
    let r := callratelimiter query_type func now w in
    fst r = Raise e /\
    self (snd r) = snd (func (self (snd (decrease_api_counter now w)))) /\
    api_counter (self (snd r)) = counter_after_decay now w /\
    time_of_last_query (self (snd r)) = now.
Proof.
  intros query_type func now w l f e Hfactor Hf Hlimit Hkeep Hlt Hraise r.
  subst r. unfold callratelimiter, decorate_func.
  rewrite (counter_after_decay_eq now w f Hfactor Hf) in *.
  rewrite (decrease_api_counter_eq now w f Hfactor Hf) in *.
  rewrite (wrapper_admitted _ _ _ _ l f Hfactor Hf Hlimit Hlt).
  cbn [snd self with_self] in *.
  destruct (Hkeep (decayed now f (self w))) as (Hcnt & Htime & _).
  destruct (func (decayed now f (self w))) as [r' s']. cbn in Hraise, Hcnt, Htime.
  subst r'. cbn. repeat split; assumption.
Qed.

Lemma failed_call_is_not_charged_witness :
  let w := tier2 exchange_error 0 9 in
  let now := of_seconds 6 in
  let r := callratelimiter "other" (api_method "Balance") now w in
  fst r = Raise (KrakenAPIError ["EGeneral:Internal error"]) /\
  self (snd r) =
    snd (api_method "Balance" (self (snd (decrease_api_counter now w)))) /\
  api_counter (self (snd r)) = counter_after_decay now w /\
  time_of_last_query (self (snd r)) = now.
Proof.
  apply (failed_call_is_not_charged "other" (api_method "Balance") (of_seconds 6)
           (tier2 exchange_error 0 9) 15 3).
  - reflexivity.
  - lia.
  - reflexivity.
  - apply api_method_keeps_limiter.
  - vm_compute. reflexivity.
  - reflexivity.
Defined.

(** ** Further properties of the limiter *)

Lemma is_decorated_call_type (c : check) :
  is_decorated_call c ->
  determine_increment (check_type c) = Some 1 \/
  determine_increment (check_type c) = Some 2.
Proof.
  intros (name & endpoint & Hin & _). cbn in Hin.
  repeat (destruct Hin as [H | Hin];
          [injection H as _ <- _; cbn; auto |]).
  contradiction.
Qed.

Lemma is_decorated_call_keeps_limiter (c : check) :
  is_decorated_call c -> keeps_limiter (check_func c).
Proof.
  intros (name & endpoint & _ & ->). apply api_method_keeps_limiter.
Qed.

(** What one call of a decorated method does to a configured client. *)
Lemma decorated_step (c : check) (w : World) (l f : Z) :
  factor (self w) = Some f -> f <> 0 ->
  limit (self w) = Some l ->
  is_decorated_call c ->
  let cd := api_counter (decayed (check_now c) f (self w)) in
  let w' := snd (step c w) in
  respond (api (self w')) = respond (api (self w)) /\
  factor (self w') = Some f /\
  limit (self w') = Some l /\
  time_of_last_query (self w') = check_now c /\
  ((cd < l /\
    List.length (sent (api (self w'))) = S (List.length (sent (api (self w)))) /\
    cd <= api_counter (self w') <= cd + 2 /\
    (answers_ok (api (self w)) -> cd + 1 <= api_counter (self w')) /\
    (always_fails (api (self w)) ->
     api_counter (self w') = cd /\ exists e, fst (step c w) = Raise e))
   \/
   (l <= cd /\
    api (self w') = api (self w) /\
    api_counter (self w') = cd /\
    fst (step c w) = Return PyNone /\
    stdout w' = stdout w ++ [(limit_exceeded, cd)])).
Proof.
  intros Hfactor Hf Hlimit Hdec cd w'.
  pose proof (is_decorated_call_type c Hdec) as Htype.
  destruct Hdec as (name & endpoint & _ & Hfunc).
  subst w'. unfold step, callratelimiter, decorate_func. rewrite Hfunc.
  destruct (Z.lt_ge_cases cd l) as [Hlt | Hge].
  - rewrite (wrapper_admitted _ _ _ _ l f Hfactor Hf Hlimit Hlt).
    assert (Hapi : api (decayed (check_now c) f (self w)) = api (self w))
      by reflexivity.
    assert (Hfac : factor (decayed (check_now c) f (self w)) = Some f)
      by exact Hfactor.
    assert (Hlim : limit (decayed (check_now c) f (self w)) = Some l)
      by exact Hlimit.
    assert (Htim : time_of_last_query (decayed (check_now c) f (self w))
                   = check_now c) by reflexivity.
    fold cd.
    assert (Hcd : api_counter (decayed (check_now c) f (self w)) = cd)
      by reflexivity.
    clearbody cd.
    generalize dependent (decayed (check_now c) f (self w)). intros d.
    intros Hapi Hfac Hlim Htim Hcd.
    unfold api_method, query. rewrite Hapi.
    destruct (respond (api (self w)) endpoint) as [[| e es] res | e] eqn:Hres.
    + destruct Htype as [-> | ->]; cbn; rewrite ?Hcd, ?Hapi;
        (split; [reflexivity |]); (split; [assumption |]);
        (split; [assumption |]); (split; [assumption |]); left;
        (split; [assumption |]); (split; [reflexivity |]);
        (split; [lia |]); (split; [intros _; lia |]);
        intros Hfail; exfalso; apply (Hfail endpoint res); exact Hres.
    + cbn; rewrite ?Hcd, ?Hapi.
      (split; [reflexivity |]); (split; [assumption |]);
        (split; [assumption |]); (split; [assumption |]); left.
      (split; [assumption |]); (split; [reflexivity |]); (split; [lia |]).
      split.
      * intros Hok. destruct (Hok endpoint) as [res' Hres'].
        rewrite Hres' in Hres. discriminate.
      * intros _. split; [reflexivity | eexists; reflexivity].
    + cbn; rewrite ?Hcd, ?Hapi.
      (split; [reflexivity |]); (split; [assumption |]);
        (split; [assumption |]); (split; [assumption |]); left.
      (split; [assumption |]); (split; [reflexivity |]); (split; [lia |]).
      split.
      * intros Hok. destruct (Hok endpoint) as [res' Hres'].
        rewrite Hres' in Hres. discriminate.
      * intros _. split; [reflexivity | eexists; reflexivity].
  - rewrite (wrapper_refused _ _ _ _ l f Hfactor Hf Hlimit Hge). cbn.
    (split; [reflexivity |]); (split; [assumption |]);
      (split; [assumption |]); (split; [reflexivity |]); right.
    repeat split. exact Hge.
Qed.

Lemma last_cons_default {A} (l : list A) (a d : A) :
  last (a :: l) d = last l a.
Proof.
  revert a d. induction l as [| b l IH]; intros a d; [reflexivity |].
  change (last (a :: b :: l) d) with (last (b :: l) d).
  now rewrite !IH.
Qed.

Lemma last_reading_cons (t : datetime) (c : check) (cs : list check) :
  last_reading t (c :: cs) = last_reading (check_now c) cs.
Proof. unfold last_reading. cbn [map]. apply last_cons_default. Qed.

(** The decrement never takes more than the time that went by. *)
Lemma decr_le_elapsed (now : datetime) (f : Z) (s : KrakenAPI) :
  0 < f -> time_of_last_query s <= now ->
  0 <= decr now f s /\
  decr now f s * of_seconds f <= now - time_of_last_query s.
Proof.
  intros Hf Hnow. split; [now apply decr_nonneg |].
  unfold decr, elapsed_seconds, datetime.sub, normalize, of_seconds,
    seconds_per_day, us_per_second; cbn [seconds].
  set (g := now - time_of_last_query s).
  assert (Hg : 0 <= g) by (subst g; lia).
  assert (Hq : 0 <= g / 1000000) by (apply Z.div_pos; lia).
  pose proof (Z.mod_pos_bound (g / 1000000) 86400 ltac:(lia)) as Hm.
  assert (Hle : (g / 1000000) mod 86400 <= g / 1000000)
    by (apply Z.mod_le; lia).
  rewrite Z.quot_div_nonneg by lia.
  pose proof (Z.mul_div_le ((g / 1000000) mod 86400) f Hf) as H1.
  pose proof (Z.mul_div_le g 1000000 ltac:(lia)) as H2.
  nia.
Qed.

(** Less than one decay period after the last check nothing decays. *)
Lemma decr_zero_within_period (now : datetime) (f : Z) (s : KrakenAPI) :
  0 < f -> 0 <= now - time_of_last_query s < of_seconds f ->
  decr now f s = 0.
Proof.
  unfold of_seconds, us_per_second. intros Hf Hg.
  unfold decr, elapsed_seconds, datetime.sub, normalize,
    seconds_per_day, us_per_second; cbn [seconds].
  set (g := now - time_of_last_query s) in *.
  assert (Hq : 0 <= g / 1000000 < f).
  { split; [apply Z.div_pos; lia | apply Z.div_lt_upper_bound; lia]. }
  pose proof (Z.mod_pos_bound (g / 1000000) 86400 ltac:(lia)) as Hm.
  assert (Hle : (g / 1000000) mod 86400 <= g / 1000000)
    by (apply Z.mod_le; lia).
  rewrite Z.quot_div_nonneg by lia.
  apply Z.div_small. lia.
Qed.

(** What one call does to the limiter of a configured client, for any
    wrapped function that leaves the limiter alone. *)
Lemma limiter_step (query_type : string) (func : method) (now : datetime)
      (w : World) (l f : Z) :
  factor (self w) = Some f -> f <> 0 ->
  limit (self w) = Some l ->
  keeps_limiter func ->
  let cd := api_counter (decayed now f (self w)) in
  let w' := snd (wrapper query_type func now w) in
  factor (self w') = Some f /\
  limit (self w') = Some l /\
  time_of_last_query (self w') = now /\
  ((cd < l /\ cd <= api_counter (self w') <= cd + 2) \/
   (l <= cd /\ api_counter (self w') = cd)).
Proof.
  intros Hfactor Hf Hlimit Hkeep cd w'. subst w'.
  destruct (Z.lt_ge_cases cd l) as [Hlt | Hge].
  - rewrite (wrapper_admitted _ _ _ _ l f Hfactor Hf Hlimit Hlt).
    destruct (Hkeep (decayed now f (self w))) as (Hc & Ht & Hl & Hfa).
    destruct (func (decayed now f (self w))) as [[v | e] s'];
      cbn [snd] in Hc, Ht, Hl, Hfa.
    + destruct (determine_increment query_type) as [i |] eqn:Hi; cbn.
      * rewrite Hfa, Hl, Ht, Hc. fold cd.
        destruct (determine_increment_cases _ _ Hi); subst i;
          (split; [assumption |]); (split; [assumption |]);
          (split; [reflexivity |]); left; unfold cd in *; rewrite ?decayed_counter in *; lia.
      * rewrite Hfa, Hl, Ht, Hc. fold cd.
        (split; [assumption |]); (split; [assumption |]);
          (split; [reflexivity |]); left; unfold cd in *; rewrite ?decayed_counter in *; lia.
    + cbn. rewrite Hfa, Hl, Ht, Hc. fold cd.
      (split; [assumption |]); (split; [assumption |]);
        (split; [reflexivity |]); left; unfold cd in *; rewrite ?decayed_counter in *; lia.
  - rewrite (wrapper_refused _ _ _ _ l f Hfactor Hf Hlimit Hge). cbn.
    (split; [assumption |]); (split; [assumption |]);
      (split; [reflexivity |]); right; split; [assumption | reflexivity].
Qed.

Lemma init_configured (a : API) (tier : Z) (t0 : datetime)
      (client : KrakenAPI) (l : Z) :
  __init__ a tier t0 = Return client ->
  limit client = Some l ->
  exists f, factor client = Some f /\ 0 < f /\ 0 <= l /\
            api_counter client = 0 /\ time_of_last_query client = t0.
Proof.
  unfold __init__.
  destruct (tier =? 2); [| destruct (tier =? 3); [| destruct (tier =? 4)]];
    intros [= <-]; cbn; intros [= <-].
  - exists 3. repeat split; lia.
  - exists 2. repeat split; lia.
  - exists 1. repeat split; lia.
Qed.

Lemma trace_counters_bounded (checks : list check) (l f : Z) :
  0 < f -> 0 <= l ->
  Forall (fun c => keeps_limiter (check_func c)) checks ->
  forall w,
    factor (self w) = Some f -> limit (self w) = Some l ->
    api_counter (self w) <= l + 1 ->
    Forall (fun rc => snd rc <= l + 1) (trace checks w) /\
    limit (self (run checks w)) = Some l /\
    factor (self (run checks w)) = Some f.
Proof.
  intros Hf Hl. induction 1 as [| c cs Hc _ IH]; intros w Hfactor Hlimit Hle.
  - cbn. auto.
  - cbn [trace run].
    pose proof (limiter_step (check_type c) _ (check_now c) w l f
                  Hfactor ltac:(lia) Hlimit Hc) as Hstep.
    cbn zeta in Hstep. rewrite decayed_counter in Hstep.
    pose proof (decr_nonneg (check_now c) f (self w) Hf) as Hd.
    unfold step, callratelimiter, decorate_func in *.
    destruct (wrapper (check_type c) (check_func c) (check_now c) w)
      as [r w']. cbn [snd] in *.
    destruct Hstep as (Hfactor' & Hlimit' & _ & Hcnt).
    assert (Hle' : api_counter (self w') <= l + 1) by lia.
    destruct (IH w' Hfactor' Hlimit' Hle') as (Htr & Hrl & Hrf).
    split; [constructor; [exact Hle' | exact Htr] | split; assumption].
Qed.

(** The counter never goes beyond the limit by more than one: for a
    client built by [__init__] with a tier it knows, after each call
    of any sequence the counter is between 0 and [limit + 1], and
    [limit] and [factor] are what the constructor set. *)
Theorem api_counter_at_most_limit_plus_one :
  forall (a : API) (tier : Z) (t0 : datetime) (client : KrakenAPI)
         (out : list line) (checks : list check) (l : Z),
    __init__ a tier t0 = Return client ->
    limit client = Some l ->
    Forall (fun c => keeps_limiter (check_func c)) checks ->
    let w := {| self := client; stdout := out |} in
    Forall (fun rc => 0 <= snd rc <= l + 1) (trace checks w) /\
    limit (self (run checks w)) = limit client /\
    factor (self (run checks w)) = factor client.
Proof.
  intros a tier t0 client out checks l Hinit Hlimit Hkeep w.
  destruct (init_configured _ _ _ _ _ Hinit Hlimit)
    as (f & Hfactor & Hf & Hl & Hc0 & _).
  destruct (trace_counters_bounded checks l f Hf Hl Hkeep w Hfactor Hlimit)
    as (Hup & Hrl & Hrf); [cbn; lia |].
  assert (Hlow : Forall (fun rc => 0 <= snd rc) (trace checks w))
    by (apply trace_counters_nonneg; [exact Hkeep | cbn; lia]).
  split; [| split; congruence].
  rewrite Forall_forall in *. intros rc Hin.
  split; [apply Hlow | apply Hup]; exact Hin.
Qed.

Lemma api_counter_at_most_limit_plus_one_witness :
  let client := {| api := exchange_ok PyNone; time_of_last_query := 0;
                   api_counter := 0; limit := Some 20; factor := Some 1 |} in
  let checks := [ mkCheck "ledger/trade history" (api_method "Ledgers") 0;
                  mkCheck "other" (api_method "Time") (of_seconds 1) ] in
  let w := {| self := client; stdout := [] |} in
  Forall (fun rc => 0 <= snd rc <= 20 + 1) (trace checks w) /\
  limit (self (run checks w)) = limit client /\
  factor (self (run checks w)) = factor client.
Proof.
  apply (api_counter_at_most_limit_plus_one (exchange_ok PyNone) 4 0).
  - reflexivity.
  - reflexivity.
  - repeat constructor; apply api_method_keeps_limiter.
Defined.

Lemma always_fails_respond (a b : API) :
  respond b = respond a -> always_fails a -> always_fails b.
Proof. intros H Hf e res. rewrite H. apply Hf. Qed.

(** A call that hands a result back was admitted and has been charged. *)
Lemma result_is_charged (query_type : string) (func : method)
      (now : datetime) (w : World) (l f : Z) (v : string) :
  factor (self w) = Some f -> f <> 0 ->
  limit (self w) = Some l ->
  keeps_limiter func ->
  fst (wrapper query_type func now w) = Return (PyObj v) ->
  api_counter (decayed now f (self w)) < l /\
  api_counter (decayed now f (self w)) + 1
    <= api_counter (self (snd (wrapper query_type func now w))).
Proof.
  intros Hfactor Hf Hlimit Hkeep.
  destruct (Z.lt_ge_cases (api_counter (decayed now f (self w))) l)
    as [Hlt | Hge].
  - rewrite (wrapper_admitted _ _ _ _ l f Hfactor Hf Hlimit Hlt).
    destruct (Hkeep (decayed now f (self w))) as (Hc & _).
    destruct (func (decayed now f (self w))) as [[v' | e] s'];
      cbn [snd] in Hc; [| discriminate].
    destruct (determine_increment query_type) as [i |] eqn:Hi;
      [| discriminate].
    intros _. cbn [snd self with_self set_api_counter api_counter].
    rewrite Hc. destruct (determine_increment_cases _ _ Hi); lia.
  - rewrite (wrapper_refused _ _ _ _ l f Hfactor Hf Hlimit Hge).
    discriminate.
Qed.

Lemma results_bounded (checks : list check) (l f : Z) :
  0 < f ->
  Forall (fun c => keeps_limiter (check_func c)) checks ->
  forall w,
    factor (self w) = Some f -> limit (self w) = Some l ->
    clock_nondecreasing (time_of_last_query (self w)) checks ->
    exists D,
      0 <= D /\
      D * of_seconds f <=
        last_reading (time_of_last_query (self w)) checks
        - time_of_last_query (self w) /\
      Z.of_nat (results_returned (trace checks w))
      <= Z.min (api_counter (self (run checks w))) l
         - Z.min (api_counter (self w)) l + D.
Proof.
  intros Hf. induction 1 as [| c cs Hc _ IH];
    intros w Hfactor Hlimit Hclock.
  - exists 0. cbn. unfold last_reading. cbn. lia.
  - destruct Hclock as [Hnow Hclock].
    pose proof (limiter_step (check_type c) _ (check_now c) w l f
                  Hfactor ltac:(lia) Hlimit Hc) as Hstep.
    pose proof (fun v => result_is_charged (check_type c) (check_func c)
                           (check_now c) w l f v
                           Hfactor ltac:(lia) Hlimit Hc) as Hres.
    cbn zeta in Hstep. rewrite decayed_counter in Hstep.
    setoid_rewrite decayed_counter in Hres.
    destruct (decr_le_elapsed (check_now c) f (self w) Hf Hnow) as [Hd0 Hd].
    cbn [run trace]. rewrite last_reading_cons.
    unfold step, callratelimiter, decorate_func in *.
    destruct (wrapper (check_type c) (check_func c) (check_now c) w)
      as [r w']. cbn [fst snd] in *.
    destruct Hstep as (Hfactor' & Hlimit' & Htime' & Hcnt).
    rewrite <- Htime' in Hclock.
    destruct (IH w' Hfactor' Hlimit' Hclock) as (D & HD0 & HD & Hcount).
    rewrite Htime' in HD.
    exists (D + decr (check_now c) f (self w)).
    split; [lia |]. split; [lia |].
    unfold results_returned in *. cbn [filter].
    destruct (is_result (r, api_counter (self w'))) eqn:His.
    + unfold is_result in His. cbn [fst] in His.
      destruct r as [[| v] | e]; try discriminate.
      destruct (Hres v eq_refl) as [Hlt Hch].
      cbn [List.length]. lia.
    + lia.
Qed.

(** The rate at which results are handed out: for a configured client
    and clock readings that never go back, the number of calls of a
    sequence that hand a result back (a value other than [None]) is at
    most what is left of the limit plus one per decay period elapsed,
    whatever the wrapped functions do short of writing the limiter's
    attributes. *)
Theorem result_rate_bound :
  forall (checks : list check) (w : World) (l f : Z),
    factor (self w) = Some f -> 0 < f ->
    limit (self w) = Some l ->
    Forall (fun c => keeps_limiter (check_func c)) checks ->
    clock_nondecreasing (time_of_last_query (self w)) checks ->
    Z.of_nat (results_returned (trace checks w))
    <= l - Z.min (api_counter (self w)) l
       + (last_reading (time_of_last_query (self w)) checks
          - time_of_last_query (self w)) / of_seconds f.
Proof.
  intros checks w l f Hfactor Hf Hlimit Hkeep Hclock.
  destruct (results_bounded checks l f Hf Hkeep w Hfactor Hlimit Hclock)
    as (D & HD0 & HD & Hcount).
  assert (HP : 0 < of_seconds f) by (unfold of_seconds, us_per_second; lia).
  assert (HDq : D <= (last_reading (time_of_last_query (self w)) checks
                      - time_of_last_query (self w)) / of_seconds f)
    by (apply Z.div_le_lower_bound; lia).
  lia.
Qed.

(** An exchange whose answers never get through is never shielded:
    every call of a sequence of decorated calls is admitted and raises,
    each one sending its query, as long as the counter starts below
    the limit. *)
Theorem failing_exchange_is_never_refused :
  forall (checks : list check) (w : World) (l f : Z),
    factor (self w) = Some f -> 0 < f ->
    limit (self w) = Some l ->
    0 <= api_counter (self w) < l ->
    always_fails (api (self w)) ->
    Forall is_decorated_call checks ->
    List.length (sent (api (self (run checks w)))) =
      (List.length checks + List.length (sent (api (self w))))%nat /\
    Forall (fun rc => (exists e, fst rc = Raise e) /\
                      0 <= snd rc <= api_counter (self w))
           (trace checks w) /\
    stdout (run checks w) = stdout w.
Proof.
  intros checks w l f Hfactor Hf Hlimit Hc Hfail Hdec. revert w Hfactor Hlimit Hc Hfail.
  induction Hdec as [| c cs Hcall _ IH]; intros w Hfactor Hlimit Hc Hfail.
  - cbn. auto.
  - pose proof (decorated_step c w l f Hfactor ltac:(lia) Hlimit Hcall) as Hstep.
    cbn zeta in Hstep. rewrite decayed_counter in Hstep.
    pose proof (decr_nonneg (check_now c) f (self w) Hf) as Hd.
    cbn [run trace].
    assert (Hout : stdout (snd (step c w)) = stdout w).
    { pose proof (is_decorated_call_type c Hcall) as Htype.
      destruct Hcall as (name & endpoint & _ & Hfunc).
      unfold step, callratelimiter, decorate_func.
      rewrite (wrapper_admitted _ _ _ _ l f Hfactor ltac:(lia) Hlimit)
        by (rewrite decayed_counter; lia).
      destruct (check_func c (decayed (check_now c) f (self w)))
        as [[v | e] s'];
        [destruct (determine_increment (check_type c)) |]; reflexivity. }
    destruct (step c w) as [r w']. cbn [fst snd] in *.
    destruct Hstep as (Hresp & Hfactor' & Hlimit' & _ & Hcase).
    destruct Hcase as [(Hlt & Hlen & _ & _ & Hraise) | (Hge & _)]; [| lia].
    destruct (Hraise Hfail) as [Hcnt Hexn].
    destruct (IH w' Hfactor' Hlimit' ltac:(lia)
                (always_fails_respond _ _ Hresp Hfail)) as (Hs & Htr & Ho).
    split; [rewrite Hs, Hlen; cbn; lia |].
    split; [| congruence].
    constructor; [cbn; split; [exact Hexn | lia] |].
    rewrite Forall_forall in *. intros rc Hin.
    destruct (Htr rc Hin) as [He Hb]. split; [exact He | lia].
Qed.

Lemma result_rate_bound_witness :
  let w := tier2 (exchange_ok (PyObj "time")) 0 14 in
  let checks := [ mkCheck "other" (api_method "Time") 0;
                  mkCheck "ledger/trade history" (api_method "Trades")
                          (of_seconds 1);
                  mkCheck "other" (api_method "Time") (of_seconds 5) ] in
  Z.of_nat (results_returned (trace checks w))
  <= 15 - Z.min (api_counter (self w)) 15
     + (last_reading (time_of_last_query (self w)) checks
        - time_of_last_query (self w)) / of_seconds 3.
Proof.
  apply (result_rate_bound
           [ mkCheck "other" (api_method "Time") 0;
             mkCheck "ledger/trade history" (api_method "Trades")
                     (of_seconds 1);
             mkCheck "other" (api_method "Time") (of_seconds 5) ]
           (tier2 (exchange_ok (PyObj "time")) 0 14) 15 3).
  - reflexivity.
  - lia.
  - reflexivity.
  - repeat constructor; apply api_method_keeps_limiter.
  - cbn. unfold of_seconds, us_per_second. lia.
Defined.

Lemma failing_exchange_is_never_refused_witness :
  let w := tier2 exchange_error 0 14 in
  let checks := [ mkCheck "other" (api_method "Time") 0;
                  mkCheck "other" (api_method "Time") 0;
                  mkCheck "ledger/trade history" (api_method "Trades") 0 ] in
  List.length (sent (api (self (run checks w)))) =
    (List.length checks + List.length (sent (api (self w))))%nat /\
  Forall (fun rc => (exists e, fst rc = Raise e) /\
                    0 <= snd rc <= api_counter (self w))
         (trace checks w) /\
  stdout (run checks w) = stdout w.
Proof.
  apply (failing_exchange_is_never_refused
           [ mkCheck "other" (api_method "Time") 0;
             mkCheck "other" (api_method "Time") 0;
             mkCheck "ledger/trade history" (api_method "Trades") 0 ]
           (tier2 exchange_error 0 14) 15 3).
  - reflexivity.
  - lia.
  - reflexivity.
  - cbn. lia.
  - intros endpoint res. cbn. discriminate.
  - repeat constructor.
    + exists "get_server_time", "Time". split; [cbn; auto | reflexivity].
    + exists "get_server_time", "Time". split; [cbn; auto | reflexivity].
    + exists "get_recent_trades", "Trades".
      split; [cbn; auto 10 | reflexivity].
Defined.

(** ** Polling faster than the decay period *)

Lemma polling_counters (checks : list check) (l f : Z) :
  0 < f ->
  Forall (fun c => keeps_limiter (check_func c)) checks ->
  forall w,
    factor (self w) = Some f -> limit (self w) = Some l ->
    0 <= api_counter (self w) ->
    polled_within f (time_of_last_query (self w)) checks ->
    Forall (fun rc => api_counter (self w) <= snd rc) (trace checks w).
Proof.
  intros Hf. induction 1 as [| c cs Hc _ IH];
    intros w Hfactor Hlimit Hc0 Hpoll; cbn [trace]; [constructor |].
  destruct Hpoll as [Hgap Hpoll].
  pose proof (limiter_step (check_type c) _ (check_now c) w l f
                Hfactor ltac:(lia) Hlimit Hc) as Hstep.
  cbn zeta in Hstep. rewrite decayed_counter in Hstep.
  rewrite (decr_zero_within_period _ _ _ Hf Hgap) in Hstep.
  unfold step, callratelimiter, decorate_func in *.
  destruct (wrapper (check_type c) (check_func c) (check_now c) w) as [r w'].
  cbn [snd] in *.
  destruct Hstep as (Hfactor' & Hlimit' & Htime' & Hcnt).
  rewrite <- Htime' in Hpoll.
  assert (Hle : api_counter (self w) <= api_counter (self w')) by lia.
  constructor; [exact Hle |].
  specialize (IH w' Hfactor' Hlimit' ltac:(lia) Hpoll).
  rewrite Forall_forall in *. intros rc Hin. specialize (IH rc Hin). lia.
Qed.

(** Polling starves the decay: when each call comes less than one
    decay period after the one before, [time_of_last_query] moves on
    each time and the fraction of a period is lost, so the counter
    never goes down, however long the sequence lasts. *)
Theorem polling_never_decays :
  forall (checks : list check) (w : World) (l f : Z),
    factor (self w) = Some f -> 0 < f ->
    limit (self w) = Some l ->
    0 <= api_counter (self w) ->
    Forall (fun c => keeps_limiter (check_func c)) checks ->
    polled_within f (time_of_last_query (self w)) checks ->
    Forall (fun rc => api_counter (self w) <= snd rc) (trace checks w).
Proof.
  intros checks w l f Hfactor Hf Hlimit Hc0 Hkeep Hpoll.
  now apply (polling_counters checks l f).
Qed.

Lemma polling_never_decays_witness :
  let w := tier2 (exchange_ok PyNone) 0 16 in
  let checks := [ mkCheck "other" (api_method "Time") (of_seconds 2);
                  mkCheck "other" (api_method "Time") (of_seconds 4);
                  mkCheck "other" (api_method "Time") (of_seconds 6) ] in
  Forall (fun rc => api_counter (self w) <= snd rc) (trace checks w).
Proof.
  apply (polling_never_decays
           [ mkCheck "other" (api_method "Time") (of_seconds 2);
             mkCheck "other" (api_method "Time") (of_seconds 4);
             mkCheck "other" (api_method "Time") (of_seconds 6) ]
           (tier2 (exchange_ok PyNone) 0 16) 15 3).
  - reflexivity.
  - lia.
  - reflexivity.
  - cbn. lia.
  - repeat constructor; apply api_method_keeps_limiter.
  - cbn. unfold of_seconds, us_per_second. lia.
Defined.

(** A locked-out client that keeps polling stays locked out: at or
    above the limit, with each call less than one decay period after
    the one before, every call is refused, whatever the wrapped
    functions are; the counter does not move and nothing is sent. *)
Theorem polling_keeps_the_lockout :
  forall (checks : list check) (w : World) (l f : Z),
    factor (self w) = Some f -> 0 < f ->
    limit (self w) = Some l ->
    0 <= api_counter (self w) -> l <= api_counter (self w) ->
    polled_within f (time_of_last_query (self w)) checks ->
    trace checks w =
      map (fun _ => (Return PyNone, api_counter (self w))) checks /\
    api (self (run checks w)) = api (self w) /\
    api_counter (self (run checks w)) = api_counter (self w) /\
    stdout (run checks w) =
      stdout w ++ map (fun _ => (limit_exceeded, api_counter (self w))) checks.
Proof.
  intros checks w l f Hfactor Hf Hlimit Hc0 Hge. revert w Hfactor Hlimit Hc0 Hge.
  induction checks as [| c cs IH]; intros w Hfactor Hlimit Hc0 Hge Hpoll.
  - cbn. rewrite app_nil_r. auto.
  - destruct Hpoll as [Hgap Hpoll]. cbn [trace run map].
    assert (Hcd : api_counter (decayed (check_now c) f (self w))
                  = api_counter (self w)).
    { rewrite decayed_counter, (decr_zero_within_period _ _ _ Hf Hgap). lia. }
    unfold step, callratelimiter, decorate_func.
    rewrite (wrapper_refused _ _ _ _ l f Hfactor ltac:(lia) Hlimit)
      by (rewrite Hcd; exact Hge).
    cbn [fst snd self]. rewrite Hcd.
    set (w' := {| self := decayed (check_now c) f (self w);
                  stdout := stdout w ++ [(limit_exceeded, api_counter (self w))] |}).
    assert (Hw' : api_counter (self w') = api_counter (self w)) by exact Hcd.
    destruct (IH w' Hfactor Hlimit) as (Htr & Hapi & Hcnt & Hout);
      [rewrite Hw'; exact Hc0 | rewrite Hw'; exact Hge | exact Hpoll |].
    rewrite Hw' in Htr, Hcnt, Hout.
    rewrite Htr, Hapi, Hcnt, Hout. subst w'. cbn [self stdout].
    rewrite <- app_assoc. cbn. auto.
Qed.

Lemma polling_keeps_the_lockout_witness :
  let w := tier2 (exchange_ok PyNone) 0 16 in
  let checks := [ mkCheck "other" (api_method "Time") (of_seconds 2);
                  mkCheck "other" (api_method "Time") (of_seconds 4);
                  mkCheck "other" (api_method "Time") (of_seconds 6);
                  mkCheck "other" (api_method "Time") (of_seconds 8) ] in
  trace checks w =
    map (fun _ => (Return PyNone, api_counter (self w))) checks /\
  api (self (run checks w)) = api (self w) /\
  api_counter (self (run checks w)) = api_counter (self w) /\
  stdout (run checks w) =
    stdout w ++ map (fun _ => (limit_exceeded, api_counter (self w))) checks.
Proof.
  apply (polling_keeps_the_lockout
           [ mkCheck "other" (api_method "Time") (of_seconds 2);
             mkCheck "other" (api_method "Time") (of_seconds 4);
             mkCheck "other" (api_method "Time") (of_seconds 6);
             mkCheck "other" (api_method "Time") (of_seconds 8) ]
           (tier2 (exchange_ok PyNone) 0 16) 15 3).
  - reflexivity.
  - lia.
  - reflexivity.
  - cbn. lia.
  - cbn. lia.
  - cbn. unfold of_seconds, us_per_second. lia.
Defined.

(** ** What the clock can do to the decay *)

(** Within a day of the last check the counter goes down by the number
    of whole decay periods elapsed, whatever the remainder, and stops
    at 0. *)
Theorem decay_within_a_day :
  forall (now : datetime) (w : World) (f k r : Z),
    factor (self w) = Some f -> 0 < f ->
    0 <= k -> 0 <= r < of_seconds f ->
    now - time_of_last_query (self w) = k * of_seconds f + r ->
    now - time_of_last_query (self w) < of_seconds seconds_per_day ->
    counter_after_decay now w = Z.max 0 (api_counter (self w) - k).
Proof.
  intros now w f k r Hfactor Hf Hk Hr He Hday.
  rewrite (counter_after_decay_eq now w f Hfactor ltac:(lia)), decayed_counter.
  now rewrite (decr_within_a_day now f (self w) Hf k r Hk Hr He Hday).
Qed.

Lemma decay_within_a_day_witness :
  counter_after_decay (of_seconds 10 + 999999) (tier2 (exchange_ok PyNone) 0 16)
  = Z.max 0 (16 - 3).
Proof.
  apply (decay_within_a_day (of_seconds 10 + 999999)
           (tier2 (exchange_ok PyNone) 0 16) 3 3 1999999).
  - reflexivity.
  - lia.
  - lia.
  - unfold of_seconds, us_per_second. lia.
  - reflexivity.
  - vm_compute. reflexivity.
Defined.

Lemma decr_whole_days (now : datetime) (f : Z) (s : KrakenAPI) (n : Z) :
  decr (now + n * of_seconds seconds_per_day) f s = decr now f s.
Proof.
  unfold decr, elapsed_seconds, datetime.sub, normalize, of_seconds,
    seconds_per_day, us_per_second; cbn [seconds].
  replace (now + n * (86400 * 1000000) - time_of_last_query s)
    with (now - time_of_last_query s + (n * 86400) * 1000000) by lia.
  rewrite Z.div_add by lia.
  now rewrite Z.mod_add by lia.
Qed.

(** Whole days do not count: a check that comes any whole number of
    days later (or earlier) than another decays the counter by the
    same amount, so a client at its limit that waits exactly [n] days
    is refused as if it had not waited. *)
Theorem whole_days_do_not_decay :
  forall (now : datetime) (w : World) (l f n : Z),
    factor (self w) = Some f -> f <> 0 ->
    limit (self w) = Some l ->
    let later := now + n * of_seconds seconds_per_day in
    counter_after_decay later w = counter_after_decay now w /\
    (forall (query_type : string) (func : method),
        l <= counter_after_decay now w ->
        fst (callratelimiter query_type func later w) = Return PyNone /\
        api (self (snd (callratelimiter query_type func later w))) =
          api (self w)).
Proof.
  intros now w l f n Hfactor Hf Hlimit later.
  assert (Hsame : counter_after_decay later w = counter_after_decay now w).
  { rewrite !(counter_after_decay_eq _ w f Hfactor Hf), !decayed_counter.
    subst later. now rewrite decr_whole_days. }
  split; [exact Hsame |].
  intros query_type func Hge. rewrite <- Hsame in Hge.
  rewrite (counter_after_decay_eq later w f Hfactor Hf) in Hge.
  unfold callratelimiter, decorate_func.
  now rewrite (wrapper_refused _ _ _ _ l f Hfactor Hf Hlimit Hge).
Qed.

Lemma whole_days_do_not_decay_witness :
  let w := tier2 (exchange_ok PyNone) 0 16 in
  let later := of_seconds 2 + 7 * of_seconds seconds_per_day in
  counter_after_decay later w = counter_after_decay (of_seconds 2) w /\
  (forall (query_type : string) (func : method),
      15 <= counter_after_decay (of_seconds 2) w ->
      fst (callratelimiter query_type func later w) = Return PyNone /\
      api (self (snd (callratelimiter query_type func later w))) =
        api (self w)).
Proof.
  apply (whole_days_do_not_decay (of_seconds 2)
           (tier2 (exchange_ok PyNone) 0 16) 15 3 7).
  - reflexivity.
  - lia.
  - reflexivity.
Defined.

(** A clock that reads earlier than the last check clears the counter:
    [datetime.now()] is local time, and when it has gone back by [g]
    (a clock correction, the end of daylight saving time), with [g] up
    to a day less the [counter * factor] seconds a full decay takes,
    the [seconds] field of the negative difference is large enough to
    take the counter to 0. *)
Theorem clock_set_back_clears_counter :
  forall (now : datetime) (w : World) (f : Z),
    factor (self w) = Some f -> 0 < f ->
    0 <= api_counter (self w) ->
    0 < time_of_last_query (self w) - now
      <= of_seconds (seconds_per_day - api_counter (self w) * f) ->
    counter_after_decay now w = 0.
Proof.
  intros now w f Hfactor Hf Hc Hg.
  rewrite (counter_after_decay_eq now w f Hfactor ltac:(lia)), decayed_counter.
  unfold decr, elapsed_seconds, datetime.sub, normalize; cbn [seconds].
  unfold of_seconds, seconds_per_day, us_per_second in *.
  set (c := api_counter (self w)) in *.
  set (e := now - time_of_last_query (self w)).
  assert (He : - ((86400 - c * f) * 1000000) <= e < 0) by (subst e; lia).
  assert (Hq : - (86400 - c * f) <= e / 1000000 <= -1).
  { split.
    - apply Z.div_le_lower_bound; lia.
    - assert (e / 1000000 < 0) by (apply Z.div_lt_upper_bound; lia). lia. }
  assert (Hcf : 0 <= c * f) by nia.
  pose proof (Z.div_mod (e / 1000000) 86400 ltac:(lia)) as Hdm.
  pose proof (Z.mod_pos_bound (e / 1000000) 86400 ltac:(lia)) as Hm.
  set (m := (e / 1000000) mod 86400) in *.
  assert (Hmc : c * f <= m \/ c = 0) by nia.
  rewrite Z.quot_div_nonneg by lia.
  destruct Hmc as [Hmc | ->].
  - assert (c <= m / f) by (apply Z.div_le_lower_bound; lia). lia.
  - assert (0 <= m / f) by (apply Z.div_pos; lia). lia.
Qed.

Lemma clock_set_back_clears_counter_witness :
  counter_after_decay (of_seconds 6400)
    (tier2 (exchange_ok PyNone) (of_seconds 10000) 16) = 0.
Proof.
  apply (clock_set_back_clears_counter (of_seconds 6400)
           (tier2 (exchange_ok PyNone) (of_seconds 10000) 16) 3).
  - reflexivity.
  - lia.
  - cbn. lia.
  - vm_compute. split; [reflexivity | discriminate].
Defined.

(** ** Edge cases of the decorator and of the constructor *)

(** A [query_type] that is neither of the two known ones is only
    noticed after the call: an admitted call still runs the wrapped
    function (for a method of the class, the query is sent), then
    raises [UnboundLocalError] on line 67; the result is lost and the
    counter is not charged. *)
Theorem unknown_query_type_runs_then_raises :
  forall (query_type endpoint : string) (now : datetime) (w : World)
         (l f : Z) (res : pyvalue),
    query_type <> "ledger/trade history" -> query_type <> "other" ->
    factor (self w) = Some f -> f <> 0 ->
    limit (self w) = Some l ->
    counter_after_decay now w < l ->
    respond (api (self w)) endpoint = Reply [] res ->
    let r := callratelimiter query_type (api_method endpoint) now w in
    fst r = Raise (UnboundLocalError "incr") /\
    sent (api (self (snd r))) = endpoint :: sent (api (self w)) /\
    api_counter (self (snd r)) = counter_after_decay now w.
Proof.
  intros query_type endpoint now w l f res Hq1 Hq2 Hfactor Hf Hlimit Hlt Hres r.
  assert (Hincr : determine_increment query_type = None).
  { unfold determine_increment.
    destruct (String.eqb_spec query_type "ledger/trade history");
      [contradiction |].
    destruct (String.eqb_spec query_type "other"); [contradiction |].
    reflexivity. }
  rewrite (counter_after_decay_eq now w f Hfactor Hf) in *.
  subst r. unfold callratelimiter, decorate_func.
  rewrite (wrapper_admitted _ _ _ _ l f Hfactor Hf Hlimit Hlt), Hincr.
  unfold api_method, query.
  change (api (decayed now f (self w))) with (api (self w)).
  rewrite Hres. cbn. auto.
Qed.

Lemma unknown_query_type_runs_then_raises_witness :
  let w := tier2 (exchange_ok (PyObj "time")) 0 0 in
  let r := callratelimiter "public" (api_method "Time") 0 w in
  fst r = Raise (UnboundLocalError "incr") /\
  sent (api (self (snd r))) = "Time" :: sent (api (self w)) /\
  api_counter (self (snd r)) = counter_after_decay 0 w.
Proof.
  apply (unknown_query_type_runs_then_raises "public" "Time" 0
           (tier2 (exchange_ok (PyObj "time")) 0 0) 15 3 (PyObj "time")).
  - discriminate.
  - discriminate.
  - reflexivity.
  - lia.
  - reflexivity.
  - vm_compute. reflexivity.
  - reflexivity.
Defined.

(** A client built with a tier that [__init__] does not know is inert:
    every decorated call of any sequence raises [AttributeError] on
    [self.factor] before anything is changed, sent or printed. *)
Theorem unknown_tier_client_is_inert :
  forall (a : API) (tier : Z) (t0 : datetime) (client : KrakenAPI)
         (out : list line) (checks : list check),
    tier <> 2 -> tier <> 3 -> tier <> 4 ->
    __init__ a tier t0 = Return client ->
    let w := {| self := client; stdout := out |} in
    run checks w = w /\
    trace checks w =
      map (fun _ => (Raise (AttributeError "factor"), 0)) checks /\
    api client = a.
Proof.
  intros a tier t0 client out checks H2 H3 H4 Hinit w.
  rewrite (init_unknown_tier a tier t0 H2 H3 H4) in Hinit.
  injection Hinit as <-. subst w.
  split; [| split; [| reflexivity]].
  - induction checks as [| c cs IH]; [reflexivity |].
    cbn [run]. unfold step, callratelimiter, decorate_func.
    rewrite wrapper_no_factor by reflexivity. exact IH.
  - induction checks as [| c cs IH]; [reflexivity |].
    cbn [trace map]. unfold step, callratelimiter, decorate_func.
    rewrite wrapper_no_factor by reflexivity. now rewrite IH.
Qed.

Lemma unknown_tier_client_is_inert_witness :
  let client := {| api := exchange_ok PyNone; time_of_last_query := 0;
                   api_counter := 0; limit := None; factor := None |} in
  let checks := [ mkCheck "other" (api_method "Time") 0;
                  mkCheck "other" (api_method "Balance") (of_seconds 9) ] in
  let w := {| self := client; stdout := [] |} in
  run checks w = w /\
  trace checks w = map (fun _ => (Raise (AttributeError "factor"), 0)) checks /\
  api client = exchange_ok PyNone.
Proof.
  apply (unknown_tier_client_is_inert (exchange_ok PyNone) 1 0).
  - discriminate.
  - discriminate.
  - discriminate.
  - reflexivity.
Defined.

(** ** The methods without the decorator *)

(** For a method of the class, the outcome of a decorated call and
    what it does to the limiter and to the output depend on the
    limiter's attributes, the output and the answers of the exchange
    only, not on what has been sent before. *)
Lemma decorated_call_frame (query_type endpoint : string) (now : datetime)
      (w1 w2 : World) :
  time_of_last_query (self w1) = time_of_last_query (self w2) ->
  api_counter (self w1) = api_counter (self w2) ->
  limit (self w1) = limit (self w2) ->
  factor (self w1) = factor (self w2) ->
  respond (api (self w1)) = respond (api (self w2)) ->
  stdout w1 = stdout w2 ->
  let r1 := callratelimiter query_type (api_method endpoint) now w1 in
  let r2 := callratelimiter query_type (api_method endpoint) now w2 in
  fst r1 = fst r2 /\
  time_of_last_query (self (snd r1)) = time_of_last_query (self (snd r2)) /\
  api_counter (self (snd r1)) = api_counter (self (snd r2)) /\
  limit (self (snd r1)) = limit (self (snd r2)) /\
  factor (self (snd r1)) = factor (self (snd r2)) /\
  stdout (snd r1) = stdout (snd r2).
Proof.
  destruct w1 as [[[r1 s1] t1 c1 l1 f1] o1], w2 as [[[r2 s2] t2 c2 l2 f2] o2].
  cbn. intros <- <- <- <- <- <-.
  unfold callratelimiter, decorate_func.
  destruct f1 as [f |]; [| now rewrite !wrapper_no_factor].
  destruct (Z.eq_dec f 0) as [-> | Hf]; [now rewrite !wrapper_zero_factor |].
  destruct l1 as [l |];
    [| rewrite !(wrapper_no_limit _ _ _ _ f) by (reflexivity || assumption);
       cbn; auto 10].
  set (w1 := {| self := {| api := {| respond := r1; sent := s1 |};
                           time_of_last_query := t1; api_counter := c1;
                           limit := Some l; factor := Some f |};
                stdout := o1 |}).
  set (w2 := {| self := {| api := {| respond := r1; sent := s2 |};
                           time_of_last_query := t1; api_counter := c1;
                           limit := Some l; factor := Some f |};
                stdout := o1 |}).
  assert (Hc : api_counter (decayed now f (self w1))
               = api_counter (decayed now f (self w2))) by reflexivity.
  destruct (Z.lt_ge_cases (api_counter (decayed now f (self w1))) l)
    as [Hlt | Hge].
  - rewrite (wrapper_admitted _ _ _ w1 l f eq_refl Hf eq_refl Hlt).
    rewrite (wrapper_admitted _ _ _ w2 l f eq_refl Hf eq_refl)
      by (rewrite <- Hc; exact Hlt).
    unfold api_method, query. cbn [api decayed set_time_of_last_query
      set_api_counter self w1 w2 respond].
    destruct (r1 endpoint) as [[| e es] res | e];
      [destruct (determine_increment query_type) | |]; cbn; auto 10.
  - rewrite (wrapper_refused _ _ _ w1 l f eq_refl Hf eq_refl Hge).
    rewrite (wrapper_refused _ _ _ w2 l f eq_refl Hf eq_refl)
      by (rewrite <- Hc; exact Hge).
    cbn. auto 10.
Qed.

(** A method called without the decorator sends its query and leaves
    the limiter and the output as they are; a decorated call that
    comes next cannot tell. *)
Lemma undecorated_call_frame (order query_type endpoint : string)
      (now : datetime) (w : World) :
  let w' := snd (call (api_method order) w) in
  let r := callratelimiter query_type (api_method endpoint) now w in
  let r' := callratelimiter query_type (api_method endpoint) now w' in
  sent (api (self w')) = order :: sent (api (self w)) /\
  (api_counter (self w') = api_counter (self w) /\
   time_of_last_query (self w') = time_of_last_query (self w) /\
   limit (self w') = limit (self w) /\
   factor (self w') = factor (self w) /\
   stdout w' = stdout w) /\
  (fst r' = fst r /\
   api_counter (self (snd r')) = api_counter (self (snd r)) /\
   time_of_last_query (self (snd r')) = time_of_last_query (self (snd r)) /\
   limit (self (snd r')) = limit (self (snd r)) /\
   factor (self (snd r')) = factor (self (snd r)) /\
   stdout (snd r') = stdout (snd r)).
Proof.
  intros w' r r'.
  assert (H : sent (api (self w')) = order :: sent (api (self w)) /\
              respond (api (self w')) = respond (api (self w)) /\
              api_counter (self w') = api_counter (self w) /\
              time_of_last_query (self w') = time_of_last_query (self w) /\
              limit (self w') = limit (self w) /\
              factor (self w') = factor (self w) /\
              stdout w' = stdout w).
  { subst w'. unfold call, api_method, query.
    destruct (respond (api (self w)) order) as [[| e es] res | e];
      cbn; auto 10. }
  destruct H as (H1 & H2 & H3 & H4 & H5 & H6 & H7).
  split; [exact H1 |]. split; [auto |].
  destruct (decorated_call_frame query_type endpoint now w' w H4 H3 H5 H6 H2 H7)
    as (F1 & F2 & F3 & F4 & F5 & F6).
  repeat split; assumption.
Qed.


(** ** Datetimes and unix times *)

Lemma total_microseconds_normalize (us : Z) :
  total_microseconds (normalize us) = us.
Proof.
  unfold total_microseconds, normalize, us_per_second, seconds_per_day;
    cbn [days seconds microseconds].
  rewrite <- Z.div_div by lia.
  pose proof (Z.div_mod (us / 1000000) 86400 ltac:(lia)).
  pose proof (Z.div_mod us 1000000 ltac:(lia)).
  lia.
Qed.

Lemma datetime_to_unixtime_quot (dt : datetime) :
  datetime_to_unixtime dt = Z.quot dt us_per_second.
Proof.
  unfold datetime_to_unixtime, datetime.sub.
  now rewrite total_microseconds_normalize, Z.sub_0_r.
Qed.

(** [datetime_to_unixtime] drops the fraction of a second toward the
    epoch: from 1970 on the unixtime is the last whole second at or
    before [dt], before 1970 it is the first whole second at or after
    it, so that every instant less than a second away from the epoch,
    on either side, gives 0. *)
Theorem datetime_to_unixtime_truncates :
  forall dt : datetime,
    exact_range dt ->
    let u := datetime_to_unixtime dt in
    (0 <= dt -> of_seconds u <= dt < of_seconds (u + 1)) /\
    (dt <= 0 -> of_seconds (u - 1) < dt <= of_seconds u) /\
    (- of_seconds 1 < dt < of_seconds 1 -> u = 0).
Proof.
  intros dt _ u. subst u. rewrite datetime_to_unixtime_quot.
  unfold of_seconds, us_per_second.
  pose proof (Z.quot_rem' dt 1000000) as Hqr.
  split; [| split].
  - intros Hpos.
    pose proof (Z.rem_bound_pos_pos dt 1000000 ltac:(lia) Hpos). lia.
  - intros Hneg.
    pose proof (Z.rem_bound_pos_neg dt 1000000 ltac:(lia) Hneg). lia.
  - intros Hnear. destruct (Z.le_ge_cases 0 dt) as [Hpos | Hneg].
    + pose proof (Z.rem_bound_pos_pos dt 1000000 ltac:(lia) Hpos). lia.
    + pose proof (Z.rem_bound_pos_neg dt 1000000 ltac:(lia) Hneg). lia.
Qed.

Lemma datetime_to_unixtime_truncates_witness :
  let u := datetime_to_unixtime (-500000) in
  (0 <= -500000 -> of_seconds u <= -500000 < of_seconds (u + 1)) /\
  (-500000 <= 0 -> of_seconds (u - 1) < -500000 <= of_seconds u) /\
  (- of_seconds 1 < -500000 < of_seconds 1 -> u = 0).
Proof.
  apply (datetime_to_unixtime_truncates (-500000)).
  vm_compute. reflexivity.
Defined.

(** [unixtime_to_datetime] hands back the datetime [unixtime] seconds
    from the epoch for a unixtime between year 1 and year 9999, and
    raises [OverflowError] outside: the two overflow checks come down
    to one range of unixtimes. *)
Theorem unixtime_to_datetime_range :
  forall unixtime : Z,
    (-62135596800 <= unixtime <= 253402300799 ->
     unixtime_to_datetime unixtime = Converted (of_seconds unixtime)) /\
    (unixtime < -62135596800 \/ 253402300799 < unixtime ->
     unixtime_to_datetime unixtime = OverflowError).
Proof.
  intros u. unfold unixtime_to_datetime,
    min_datetime, max_datetime, max_timedelta_days, of_seconds,
    seconds_per_day, us_per_second.
  split; intros Hu.
  - assert (Hd : -999999999 <= u / 86400 <= 999999999).
    { split; [apply Z.div_le_lower_bound | apply Z.div_le_upper_bound]; lia. }
    destruct (Z.gtb_spec (Z.abs (u / 86400)) 999999999) as [Hgt | _]; [lia |].
    destruct (Z.leb_spec (-62135596800 * 1000000) (0 + u * 1000000)); [| lia].
    destruct (Z.leb_spec (0 + u * 1000000) (253402300800 * 1000000 - 1));
      [reflexivity | lia].
  - destruct (Z.abs (u / 86400) >? 999999999); [reflexivity |].
    destruct (Z.leb_spec (-62135596800 * 1000000) (0 + u * 1000000));
      [| reflexivity].
    destruct (Z.leb_spec (0 + u * 1000000) (253402300800 * 1000000 - 1));
      [lia | reflexivity].
Qed.

Lemma unixtime_to_datetime_whole_seconds (unixtime : Z) :
  Z.abs unixtime < 2 ^ 34 ->
  unixtime_to_datetime unixtime = Converted (of_seconds unixtime).
Proof.
  intros Hu. change (2 ^ 34) with 17179869184 in Hu.
  unfold unixtime_to_datetime,
    min_datetime, max_datetime, max_timedelta_days, of_seconds,
    seconds_per_day, us_per_second.
  assert (Hd : -999999999 <= unixtime / 86400 <= 999999999).
  { split; [apply Z.div_le_lower_bound | apply Z.div_le_upper_bound]; lia. }
  destruct (Z.gtb_spec (Z.abs (unixtime / 86400)) 999999999) as [Hgt | _];
    [lia |].
  destruct (Z.leb_spec (-62135596800 * 1000000) (0 + unixtime * 1000000));
    [| lia].
  destruct (Z.leb_spec (0 + unixtime * 1000000) (253402300800 * 1000000 - 1));
    [reflexivity | lia].
Qed.

(** Round trip: the datetime that [unixtime_to_datetime] returns is
    taken back to the same unixtime by [datetime_to_unixtime]. *)
Theorem unixtime_round_trip :
  forall unixtime : Z,
    Z.abs unixtime < 2 ^ 34 ->
    exists dt,
      unixtime_to_datetime unixtime = Converted dt /\
      exact_range dt /\
      datetime_to_unixtime dt = unixtime.
Proof.
  intros u Hu. exists (of_seconds u).
  split; [now apply unixtime_to_datetime_whole_seconds |].
  change (2 ^ 34) with 17179869184 in Hu. split.
  - unfold exact_range, of_seconds, us_per_second.
    change (2 ^ 34) with 17179869184. lia.
  - rewrite datetime_to_unixtime_quot. unfold of_seconds, us_per_second.
    apply Z.quot_mul. lia.
Qed.

Lemma unixtime_round_trip_witness :
  exists dt,
    unixtime_to_datetime 1500000000 = Converted dt /\
    exact_range dt /\
    datetime_to_unixtime dt = 1500000000.
Proof.
  apply (unixtime_round_trip 1500000000). vm_compute. reflexivity.
Defined.
